(** * action-items: the mail fetcher and its last-run store

    A shallow embedding of [src/email/gmail_client.py],
    [src/utils/state.py], [src/email/models.py] and the commands [fetch]
    and [reset] of [main.py].  Pure functions are Rocq functions; a function
    that can raise returns a [result]; the functions that talk to the mail
    service, the clock, the console or the file system thread an explicit
    world.  Functions of the Python standard library that the code calls are
    either modelled after their documented behaviour (modules [Datetime] and
    [Base64]) or, where they depend on the platform or are too large to
    model, taken as section variables. *)

From Stdlib Require Import ZArith NArith List String Ascii Bool Lia Floats.
From stdpp Require Import base list gmap.
Import ListNotations.

Local Open Scope Z_scope.

(* ================================================================= *)
(** * Python values *)

Module Py.

(** A Python [str] is the sequence of its code points. *)
Definition str := list N.

(** A literal of the source, written as a Rocq string of ASCII characters. *)
Definition py (s : string) : str := map N_of_ascii (list_ascii_of_string s).
Arguments py s%_string.

Definition ch (a : ascii) : N := N_of_ascii a.
Arguments ch a%_char.

(** The exceptions that the modelled code can meet. *)
Inductive exn : Set :=
| IndexError
| KeyError
| TypeError
| AttributeError
| OverflowError
| OSError
| ValueError
| JSONDecodeError       (* subclass of ValueError *)
| UnicodeDecodeError    (* subclass of ValueError *)
| BinasciiError         (* binascii.Error, subclass of ValueError *)
| RecursionError        (* the interpreter's recursion limit is reached *)
| HttpError.            (* raised by the mail service's client *)

#[export] Instance exn_eq_dec : EqDecision exn.
Proof. solve_decision. Defined.

(** [isinstance(e, ValueError)] *)
Definition is_ValueError (e : exn) : bool :=
  match e with
  | ValueError | JSONDecodeError | UnicodeDecodeError | BinasciiError => true
  | _ => false
  end.

(** The outcome of a call: a value, or a raised exception. *)
Inductive result (A : Type) : Type :=
| Ok (a : A)
| Raise (e : exn).
Arguments Ok {A} a.
Arguments Raise {A} e.

#[export] Instance result_eq_dec {A} `{EqDecision A} : EqDecision (result A).
Proof. solve_decision. Defined.

#[export] Instance result_ret : MRet result := @Ok.
#[export] Instance result_bind : MBind result := fun A B f r =>
  match r with
  | Ok a => f a
  | Raise e => Raise e
  end.
#[export] Instance result_fmap : FMap result := fun A B f r =>
  match r with
  | Ok a => Ok (f a)
  | Raise e => Raise e
  end.

(** [l[i]] for a non-negative index *)
Definition index {A} (l : list A) (i : nat) : result A :=
  match nth_error l i with
  | Some x => Ok x
  | None => Raise IndexError
  end.

(** [c in s] for a one-character [c] *)
Definition contains (c : N) (s : str) : bool := existsb (N.eqb c) s.

(** [s.startswith(prefix)] *)
Fixpoint startswith (prefix s : str) : bool :=
  match prefix, s with
  | [], _ => true
  | a :: prefix', b :: s' => N.eqb a b && startswith prefix' s'
  | _ :: _, [] => false
  end.

(** [sub in s] *)
Fixpoint is_substring (sub s : str) : bool :=
  startswith sub s
  || match s with
     | [] => false
     | _ :: s' => is_substring sub s'
     end.

(** [s == t] *)
Definition str_eqb (s t : str) : bool := bool_decide (s = t).

(** [s.split(sep)] for a one-character separator *)
Fixpoint split (sep : N) (s : str) : list str :=
  match s with
  | [] => [[]]
  | c :: s' =>
      if N.eqb c sep then [] :: split sep s'
      else match split sep s' with
           | h :: t => (c :: h) :: t
           | [] => [[c]]
           end
  end.

(** [sep.join(parts)] *)
Fixpoint join (sep : str) (parts : list str) : str :=
  match parts with
  | [] => []
  | [p] => p
  | p :: rest => p ++ sep ++ join sep rest
  end.

(** [str.isspace] on one code point: the Unicode white space that
    [str.strip()] removes. *)
Definition isspace (c : N) : bool :=
  ((9 <=? c) && (c <=? 13) || (28 <=? c) && (c <=? 32)
   || (c =? 133) || (c =? 160) || (c =? 5760)
   || (8192 <=? c) && (c <=? 8202)
   || (c =? 8232) || (c =? 8233) || (c =? 8239) || (c =? 8287)
   || (c =? 12288))%N.

Fixpoint lstrip_by (p : N -> bool) (s : str) : str :=
  match s with
  | [] => []
  | c :: s' => if p c then lstrip_by p s' else s
  end.

Definition rstrip_by (p : N -> bool) (s : str) : str :=
  rev (lstrip_by p (rev s)).

Definition strip_by (p : N -> bool) (s : str) : str :=
  rstrip_by p (lstrip_by p s).

(** [s.strip()] *)
Definition strip (s : str) : str := strip_by isspace s.

(** [s.strip(chars)] *)
Definition strip_chars (chars : str) (s : str) : str :=
  strip_by (fun c => contains c chars) s.

(** [s.lower()] on the ASCII letters; other code points are kept.  The
    header names that the code compares are ASCII. *)
Definition lower (s : str) : str :=
  map (fun c => if (65 <=? c) && (c <=? 90) then c + 32 else c)%N s.

(** Truth value of a string: non-empty. *)
Definition truthy_str (s : str) : bool :=
  match s with [] => false | _ => true end.

(** The decimal digits of a non-negative number, most significant first,
    padded with zeros to [width] digits: the [%0<width>d] of a format. *)
Fixpoint digits_fuel (fuel : nat) (n : N) (acc : str) : str :=
  match fuel with
  | O => acc
  | S fuel' =>
      let acc' := (48 + n mod 10)%N :: acc in
      if (n <? 10)%N then acc' else digits_fuel fuel' (n / 10)%N acc'
  end.

Definition decimal (n : N) : str := digits_fuel (S (N.to_nat (N.log2 n))) n [].

Definition zpad (width : nat) (n : Z) : str :=
  let d := decimal (Z.to_N n) in
  repeat 48%N (width - length d) ++ d.

End Py.
Import Py.

(** Code points that the source names. *)
Definition LT : N := ch "<".
Definition GT : N := ch ">".
Definition QUOTE : N := 34%N.      (* the double quote *)
Definition SPACE : N := ch " ".

#[global] Opaque LT GT QUOTE SPACE.
#[global] Arguments py : simpl never.
#[global] Arguments ch : simpl never.

(* ================================================================= *)
(** * The standard library's [datetime]

    A naive [datetime] (no time zone: no function of the repository reads
    one) with the proleptic Gregorian calendar arithmetic of the
    [datetime] module. *)

Module Datetime.

Record datetime : Set := mk_datetime {
  year : Z;
  month : Z;
  day : Z;
  hour : Z;
  minute : Z;
  second : Z;
  microsecond : Z
}.

#[export] Instance datetime_eq_dec : EqDecision datetime.
Proof. solve_decision. Defined.

Definition MINYEAR : Z := 1.
Definition MAXYEAR : Z := 9999.
Definition MAXORDINAL : Z := 3652059.       (* date(9999, 12, 31).toordinal() *)
Definition MAXDAYS : Z := 999999999.        (* the largest timedelta, in days *)

Definition is_leap (y : Z) : bool :=
  (y mod 4 =? 0) && (negb (y mod 100 =? 0) || (y mod 400 =? 0)).

Definition days_before_year (y : Z) : Z :=
  let y := y - 1 in
  y * 365 + y / 4 - y / 100 + y / 400.

Definition DAYS_IN_MONTH : list Z :=
  [-1; 31; 28; 31; 30; 31; 30; 31; 31; 30; 31; 30; 31].

Definition DAYS_BEFORE_MONTH : list Z :=
  [-1; 0; 31; 59; 90; 120; 151; 181; 212; 243; 273; 304; 334].

Definition table (t : list Z) (m : Z) : Z := nth (Z.to_nat m) t 0.

Definition days_in_month (y m : Z) : Z :=
  if (m =? 2) && is_leap y then 29 else table DAYS_IN_MONTH m.

Definition days_before_month (y m : Z) : Z :=
  table DAYS_BEFORE_MONTH m + (if (2 <? m) && is_leap y then 1 else 0).

(** year, month, day -> ordinal, with 01-Jan-0001 as day 1 *)
Definition ymd2ord (y m d : Z) : Z :=
  days_before_year y + days_before_month y m + d.

Definition DI400Y : Z := 146097.
Definition DI100Y : Z := 36524.
Definition DI4Y : Z := 1461.

(** ordinal -> (year, month, day) *)
Definition ord2ymd (n : Z) : Z * Z * Z :=
  let n := n - 1 in
  let n400 := n / DI400Y in
  let n := n mod DI400Y in
  let y := n400 * 400 + 1 in
  let n100 := n / DI100Y in
  let n := n mod DI100Y in
  let n4 := n / DI4Y in
  let n := n mod DI4Y in
  let n1 := n / 365 in
  let n := n mod 365 in
  let y := y + n100 * 100 + n4 * 4 + n1 in
  if (n1 =? 4) || (n100 =? 4) then (y - 1, 12, 31)
  else
    let leapyear := (n1 =? 3) && (negb (n4 =? 24) || (n100 =? 3)) in
    let m := Z.shiftr (n + 50) 5 in
    let preceding :=
      table DAYS_BEFORE_MONTH m + (if (2 <? m) && leapyear then 1 else 0) in
    if n <? preceding then
      let m := m - 1 in
      let preceding :=
        preceding
        - (table DAYS_IN_MONTH m + (if (m =? 2) && leapyear then 1 else 0)) in
      (y, m, n - preceding + 1)
    else (y, m, n - preceding + 1).

Definition toordinal (dt : datetime) : Z := ymd2ord (year dt) (month dt) (day dt).

(** The fields that the constructor accepts. *)
Definition valid (dt : datetime) : Prop :=
  MINYEAR <= year dt <= MAXYEAR /\ 1 <= month dt <= 12 /\
  1 <= day dt <= days_in_month (year dt) (month dt) /\
  0 <= hour dt < 24 /\ 0 <= minute dt < 60 /\ 0 <= second dt < 60 /\
  0 <= microsecond dt < 1000000.

(** [dt - timedelta(days=d)]: the time of day is kept; [OverflowError] when
    the timedelta or the resulting date is out of range. *)
Definition sub_days (dt : datetime) (d : Z) : result datetime :=
  if MAXDAYS <? Z.abs d then Raise OverflowError
  else
    let o := toordinal dt - d in
    if (0 <? o) && (o <=? MAXORDINAL) then
      let '(y, m, dd) := ord2ymd o in
      Ok (mk_datetime y m dd (hour dt) (minute dt) (second dt) (microsecond dt))
    else Raise OverflowError.

(** One directive of a [strftime] format.  [%Y] is the year as the C
    library prints it: glibc does not pad it (a year from 1000 on has its
    four digits either way). *)
Definition directive (c : N) (dt : datetime) : str :=
  if (c =? ch "Y")%N then decimal (Z.to_N (year dt))
  else if (c =? ch "m")%N then zpad 2 (month dt)
  else if (c =? ch "d")%N then zpad 2 (day dt)
  else if (c =? ch "H")%N then zpad 2 (hour dt)
  else if (c =? ch "M")%N then zpad 2 (minute dt)
  else if (c =? ch "S")%N then zpad 2 (second dt)
  else if (c =? ch "%")%N then [ch "%"]
  else [ch "%"; c].

(** [dt.strftime(fmt)] for the numeric directives that the code uses. *)
Fixpoint strftime (fmt : str) (dt : datetime) : str :=
  match fmt with
  | [] => []
  | c :: rest =>
      if (c =? ch "%")%N then
        match rest with
        | [] => [c]
        | d :: rest' => directive d dt ++ strftime rest' dt
        end
      else c :: strftime rest dt
  end.

(** [dt.isoformat()]: [YYYY-MM-DDTHH:MM:SS], and [.ffffff] when the
    microsecond is not zero. *)
Definition isoformat (dt : datetime) : str :=
  zpad 4 (year dt) ++ ch "-" :: zpad 2 (month dt) ++ ch "-" :: zpad 2 (day dt)
  ++ ch "T" :: zpad 2 (hour dt) ++ ch ":" :: zpad 2 (minute dt)
  ++ ch ":" :: zpad 2 (second dt)
  ++ (if microsecond dt =? 0 then [] else ch "." :: zpad 6 (microsecond dt)).

End Datetime.
Import Datetime.

(* ================================================================= *)
(** * The standard library's [base64] and UTF-8 decoding

    [base64.urlsafe_b64decode(data).decode("utf-8")]: the two steps that
    turn the inline data of a message part into text. *)

Module Base64.

(** [bytes]: numbers below 256. *)
Definition bytes := list N.

(** A [str] argument is encoded to ASCII first; [ValueError] otherwise. *)
Definition ascii_bytes (s : str) : result bytes :=
  if forallb (fun c => c <? 128)%N s then Ok s else Raise ValueError.

(** The URL-safe alphabet is translated to the standard one. *)
Definition urlsafe_translate (c : N) : N :=
  if (c =? ch "-")%N then ch "+"
  else if (c =? ch "_")%N then ch "/"
  else c.

(** The value of a character of the standard alphabet. *)
Definition b64_value (c : N) : option N :=
  if ((65 <=? c) && (c <=? 90))%N then Some (c - 65)%N
  else if ((97 <=? c) && (c <=? 122))%N then Some (c - 97 + 26)%N
  else if ((48 <=? c) && (c <=? 57))%N then Some (c - 48 + 52)%N
  else if (c =? ch "+")%N then Some 62%N
  else if (c =? ch "/")%N then Some 63%N
  else None.

(** [binascii.a2b_base64] in its default, non-strict mode: characters
    outside the alphabet are skipped, a complete pad sequence ends the
    input, and a quad left incomplete at the end is an error.  [out] is
    the output so far, last byte first. *)
Fixpoint a2b_base64 (s : bytes) (quad_pos leftchar pads : N) (out : bytes)
  : result bytes :=
  match s with
  | [] => if (quad_pos =? 0)%N then Ok (rev out) else Raise BinasciiError
  | c :: s' =>
      if (c =? ch "=")%N then
        if ((2 <=? quad_pos) && (4 <=? quad_pos + (pads + 1)))%N
        then Ok (rev out)
        else a2b_base64 s' quad_pos leftchar
               (if (2 <=? quad_pos)%N then pads + 1 else pads)%N out
      else
        match b64_value c with
        | None => a2b_base64 s' quad_pos leftchar pads out
        | Some v =>
            if (quad_pos =? 0)%N then a2b_base64 s' 1 v 0 out
            else if (quad_pos =? 1)%N then
              a2b_base64 s' 2 (N.land v 15) 0
                (N.lor (N.shiftl leftchar 2) (N.shiftr v 4) :: out)
            else if (quad_pos =? 2)%N then
              a2b_base64 s' 3 (N.land v 3) 0
                (N.lor (N.shiftl leftchar 4) (N.shiftr v 2) :: out)
            else
              a2b_base64 s' 0 0 0 (N.lor (N.shiftl leftchar 6) v :: out)
        end
  end.

Definition urlsafe_b64decode (s : str) : result bytes :=
  b ← ascii_bytes s;
  a2b_base64 (map urlsafe_translate b) 0 0 0 [].

(** A continuation byte, [10xxxxxx]. *)
Definition is_cont (b : N) : bool := ((128 <=? b) && (b <=? 191))%N.
Definition cont_bits (b : N) : N := N.land b 63.

(** A decoded scalar value is accepted when it is not an overlong form
    (below [lo]), not a surrogate, and not above U+10FFFF. *)
Definition scalar_ok (lo cp : N) : bool :=
  ((lo <=? cp) && (cp <=? 1114111) && negb ((55296 <=? cp) && (cp <=? 57343)))%N.

(** [bytes.decode("utf-8")], strict. *)
Fixpoint utf8_decode (b : bytes) : result str :=
  match b with
  | [] => Ok []
  | b0 :: r0 =>
      if (b0 <? 128)%N then cons b0 <$> utf8_decode r0
      else if ((192 <=? b0) && (b0 <=? 223))%N then
        match r0 with
        | b1 :: r1 =>
            let cp := (N.shiftl (N.land b0 31) 6 + cont_bits b1)%N in
            if is_cont b1 && scalar_ok 128 cp then cons cp <$> utf8_decode r1
            else Raise UnicodeDecodeError
        | _ => Raise UnicodeDecodeError
        end
      else if ((224 <=? b0) && (b0 <=? 239))%N then
        match r0 with
        | b1 :: b2 :: r2 =>
            let cp := (N.shiftl (N.land b0 15) 12 + N.shiftl (cont_bits b1) 6
                       + cont_bits b2)%N in
            if is_cont b1 && is_cont b2 && scalar_ok 2048 cp
            then cons cp <$> utf8_decode r2
            else Raise UnicodeDecodeError
        | _ => Raise UnicodeDecodeError
        end
      else if ((240 <=? b0) && (b0 <=? 247))%N then
        match r0 with
        | b1 :: b2 :: b3 :: r3 =>
            let cp := (N.shiftl (N.land b0 7) 18 + N.shiftl (cont_bits b1) 12
                       + N.shiftl (cont_bits b2) 6 + cont_bits b3)%N in
            if is_cont b1 && is_cont b2 && is_cont b3 && scalar_ok 65536 cp
            then cons cp <$> utf8_decode r3
            else Raise UnicodeDecodeError
        | _ => Raise UnicodeDecodeError
        end
      else Raise UnicodeDecodeError
  end.

(** [base64.urlsafe_b64decode(data).decode("utf-8")] *)
Definition decode_data (data : str) : result str :=
  b ← urlsafe_b64decode data;
  utf8_decode b.

End Base64.
Import Base64.

(* ================================================================= *)
(** * src/email/models.py and the records of the mail service *)

(** The [Email] dataclass. *)
Module Email.
Record t : Set := mk {
  id : str;
  thread_id : str;
  subject : str;
  sender : str;
  sender_email : str;
  recipient : str;
  date : datetime;
  snippet : str;
  body : str;
  labels : list str;
  is_unread : bool
}.
End Email.

(** One entry of a payload's header list: [{"name": ..., "value": ...}]. *)
Record header : Set := mk_header { h_name : str; h_value : str }.

(** The ["body"] object of a part.  The code reads its ["data"] key only. *)
Record part_body : Set := mk_body { data : option str }.

(** A message payload: a MIME part with, optionally, a type, a body and
    child parts.  A key that the code looks up with [in] or [.get] is an
    [option]; [None] is the absent key. *)
#[local] Unset Elimination Schemes.
Inductive payload : Set :=
| Payload (mimeType : option str) (headers : list header)
          (body : option part_body) (parts : option (list payload)).
#[local] Set Elimination Schemes.

Definition p_mimeType (p : payload) : option str :=
  match p with Payload m _ _ _ => m end.
Definition p_headers (p : payload) : list header :=
  match p with Payload _ h _ _ => h end.
Definition p_body (p : payload) : option part_body :=
  match p with Payload _ _ b _ => b end.
Definition p_parts (p : payload) : option (list payload) :=
  match p with Payload _ _ _ ps => ps end.

(** An id reference of a list response: [{"id": ..., "threadId": ...}]. *)
Record msg_ref : Set := mk_ref { ref_id : str; ref_threadId : str }.

(** The response of [messages().list]; ["messages"] is absent when nothing
    matches. *)
Record list_response : Set := mk_list_response {
  messages : option (list msg_ref)
}.

(** The response of [messages().get] in full format.  The keys that the
    code indexes directly are fields; those read with [.get] are options. *)
Record message : Set := mk_message {
  msg_id : str;
  msg_threadId : str;
  msg_payload : payload;
  msg_snippet : option str;
  msg_labelIds : option (list str)
}.

(* ================================================================= *)
(** * Effects of the fetcher

    The fetcher reads the clock, prints, obtains the service and calls its
    two operations.  A program is a tree of such calls; [run] interprets it
    against a platform and records every call with its outcome, in order. *)

Module Effects.

Inductive call : Type -> Type :=
| Now : call datetime                               (* datetime.now() *)
| Print (line : str) : call unit                    (* print(line) *)
| GetService : call unit                            (* get_gmail_service() *)
| MessagesList (q : str) (maxResults : Z) : call list_response
    (* service.users().messages().list(userId="me", q, maxResults).execute() *)
| MessagesGet (id : str) : call message.
    (* service.users().messages().get(userId="me", id, format="full").execute() *)

Inductive prog (A : Type) : Type :=
| Ret (a : A)
| Throw (e : exn)
| Do {X : Type} (c : call X) (k : X -> prog A).
Arguments Ret {A} a.
Arguments Throw {A} e.
Arguments Do {A X} c k.

Fixpoint bind {A B} (p : prog A) (f : A -> prog B) : prog B :=
  match p with
  | Ret a => f a
  | Throw e => Throw e
  | Do c k => Do c (fun x => bind (k x) f)
  end.

#[export] Instance prog_ret : MRet prog := @Ret.
#[export] Instance prog_bind : MBind prog := fun A B f p => bind p f.

(** One call. *)
Definition perform {X} (c : call X) : prog X := Do c Ret.

(** A pure computation that may raise. *)
Definition lift {A} (r : result A) : prog A :=
  match r with
  | Ok a => Ret a
  | Raise e => Throw e
  end.

(** What the world answers.  The clock and the console do not fail; the
    service may raise. *)
Record platform (W : Type) : Type := mk_platform {
  clock : W -> datetime * W;
  console : str -> W -> W;
  service : W -> result unit * W;
  list_messages : str -> Z -> W -> result list_response * W;
  get_message : str -> W -> result message * W
}.
Arguments clock {W} _ _.
Arguments console {W} _ _ _.
Arguments service {W} _ _.
Arguments list_messages {W} _ _ _ _.
Arguments get_message {W} _ _ _.

Definition handle {W X} (pf : platform W) (c : call X) : W -> result X * W :=
  match c in call X return W -> result X * W with
  | Now => fun w => let '(t, w') := clock pf w in (Ok t, w')
  | Print line => fun w => (Ok tt, console pf line w)
  | GetService => service pf
  | MessagesList q n => list_messages pf q n
  | MessagesGet i => get_message pf i
  end.

(** A call as it is recorded. *)
Inductive event : Type :=
| EvNow (r : result datetime)
| EvPrint (line : str)
| EvService (r : result unit)
| EvList (q : str) (maxResults : Z) (r : result list_response)
| EvGet (id : str) (r : result message).

Definition event_of {X} (c : call X) : result X -> event :=
  match c in call X return result X -> event with
  | Now => EvNow
  | Print line => fun _ => EvPrint line
  | GetService => EvService
  | MessagesList q n => EvList q n
  | MessagesGet i => EvGet i
  end.

(** [run pf p w] is the outcome of [p], the world it leaves, and the calls
    it made, first call first. *)
Fixpoint run {W A} (pf : platform W) (p : prog A) (w : W)
  : result A * W * list event :=
  match p with
  | Ret a => (Ok a, w, [])
  | Throw e => (Raise e, w, [])
  | Do c k =>
      let '(r, w') := handle pf c w in
      match r with
      | Ok x => let '(r', w'', tr) := run pf (k x) w' in
                (r', w'', event_of c r :: tr)
      | Raise e => (Raise e, w', [event_of c r])
      end
  end.

Definition outcome {W A} (x : result A * W * list event) : result A := x.1.1.
Definition trace {W A} (x : result A * W * list event) : list event := x.2.

End Effects.
Import Effects.

(* ================================================================= *)
(** * src/email/gmail_client.py *)

Module GmailClient.

(** Truth value of an [Optional[int]]: neither [None] nor zero. *)
Definition truthy_int (x : option Z) : bool :=
  match x with
  | Some d => negb (d =? 0)
  | None => false
  end.

(** The term [f"{key}{d.strftime('%Y/%m/%d')}"]. *)
Definition date_term (key : str) (d : datetime) : str :=
  key ++ strftime (py "%Y/%m/%d") d.

(** [build_query]: the terms are collected in [query_parts] and joined
    with one space.  [datetime.now()] is read when [days] is truthy. *)
Definition build_query (after before : option datetime) (days : option Z)
    (unread_only : bool) (labels : option (list str)) : prog str :=
  let query_parts := [] in
  (* Unread filter *)
  let query_parts :=
    if unread_only then query_parts ++ [py "is:unread"] else query_parts in
  (* Date filters *)
  query_parts ←
    (if truthy_int days then
       (* Calculate date N days ago *)
       now ← perform Now;
       target_date ← lift (sub_days now (default 0 days));
       Ret (query_parts ++ [date_term (py "after:") target_date])
     else
       let query_parts :=
         match after with
         | Some a => query_parts ++ [date_term (py "after:") a]
         | None => query_parts
         end in
       let query_parts :=
         match before with
         | Some b => query_parts ++ [date_term (py "before:") b]
         | None => query_parts
         end in
       Ret query_parts);
  (* Label filters *)
  let query_parts :=
    match labels with
    | Some ls => query_parts ++ map (fun label => py "label:" ++ label) ls
    | None => query_parts
    end in
  Ret (join (py " ") query_parts).

(** [parse_email_address] *)
Definition parse_email_address (header : str) : result (str * str) :=
  if contains LT header && contains GT header then
    (* Format: "Name <email@example.com>" *)
    before_lt ← index (split LT header) 0;
    let name := strip_chars [QUOTE] (strip before_lt) in
    after_lt ← index (split LT header) 1;
    before_gt ← index (split GT after_lt) 0;
    let email := strip before_gt in
    Ok (name, email)
  else
    (* Just email address *)
    let email := strip header in
    Ok (email, email).

(** [get_header_value] *)
Fixpoint get_header_value (headers : list header) (name : str) : str :=
  match headers with
  | [] => []
  | header :: rest =>
      if str_eqb (lower (h_name header)) (lower name) then h_value header
      else get_header_value rest name
  end.

(** ["data" in part.get("body", {})] *)
Definition has_data (part : payload) : bool :=
  match p_body part with
  | Some b => match data b with Some _ => true | None => false end
  | None => false
  end.

(** [part["body"]["data"]] *)
Definition body_data (part : payload) : result str :=
  match p_body part with
  | Some b => match data b with Some d => Ok d | None => Raise KeyError end
  | None => Raise KeyError
  end.

(** ["parts" in part] *)
Definition has_parts (part : payload) : bool :=
  match p_parts part with Some _ => true | None => false end.

(** [part.get("mimeType", "")] *)
Definition mime_type_of (part : payload) : str := default [] (p_mimeType part).

Section Walk.

(** The recursive call on a child that has parts. *)
Variable recurse : payload -> result str.

(** The loop [for part in payload["parts"]] of [get_email_body], from the
    parts still to visit and the current value of [body]. *)
Fixpoint walk (parts : list payload) (body : str) : result str :=
  match parts with
  | [] => Ok body
  | part :: rest =>
      let mime_type := mime_type_of part in
      (* Prefer plain text *)
      if str_eqb mime_type (py "text/plain") && has_data part then
        d ← body_data part;
        decode_data d
      else
        (* Fallback to HTML *)
        body ←
          (if str_eqb mime_type (py "text/html") && has_data part then
             d ← body_data part;
             decode_data d
           else Ok body);
        (* Recursively check nested parts *)
        if has_parts part then
          nested_body ← recurse part;
          if truthy_str nested_body then Ok nested_body
          else walk rest body
        else walk rest body
  end.

End Walk.

(** [get_email_body] *)
Fixpoint get_email_body (payload : payload) : result str :=
  (* Check if payload has body data *)
  if has_data payload then
    d ← body_data payload;
    decode_data d
  else
    (* Check for multipart message *)
    match payload with
    | Payload _ _ _ (Some parts) => walk get_email_body parts []
    | Payload _ _ _ None => Ok []
    end.

(** ["UNREAD" in label_ids] *)
Definition mem_str (s : str) (l : list str) : bool := existsb (str_eqb s) l.

(** The call [fetch_emails(...)] with every argument bound. *)
Section Fetch.

(** [email.utils.parsedate_to_datetime]: a date, or the error it raises
    on a value it cannot parse. *)
Variable parsedate_to_datetime : str -> result datetime.

(** The body of the loop [for msg in messages]: fetch one message and
    build its [Email]. *)
Definition fetch_detail (msg : msg_ref) : prog Email.t :=
  msg_data ← perform (MessagesGet (ref_id msg));
  (* Parse headers *)
  let headers := p_headers (msg_payload msg_data) in
  let subject := get_header_value headers (py "Subject") in
  let from_header := get_header_value headers (py "From") in
  let to_header := get_header_value headers (py "To") in
  let date_header := get_header_value headers (py "Date") in
  (* Parse sender info *)
  sender ← lift (parse_email_address from_header);
  (* Parse date *)
  date ← (if truthy_str date_header
          then lift (parsedate_to_datetime date_header)
          else perform Now);
  (* Get body *)
  body ← lift (get_email_body (msg_payload msg_data));
  (* Create Email object *)
  Ret {| Email.id := msg_id msg_data;
         Email.thread_id := msg_threadId msg_data;
         Email.subject :=
           if truthy_str subject then subject else py "(No subject)";
         Email.sender := sender.1;
         Email.sender_email := sender.2;
         Email.recipient := to_header;
         Email.date := date;
         Email.snippet := default [] (msg_snippet msg_data);
         Email.body := body;
         Email.labels := default [] (msg_labelIds msg_data);
         Email.is_unread :=
           mem_str (py "UNREAD") (default [] (msg_labelIds msg_data)) |}.

(** The loop, from the references still to fetch and the list [emails]
    built so far. *)
Fixpoint fetch_details (messages : list msg_ref) (emails : list Email.t)
  : prog (list Email.t) :=
  match messages with
  | [] => Ret emails
  | msg :: rest =>
      email ← fetch_detail msg;
      fetch_details rest (emails ++ [email])
  end.

(** [fetch_emails] *)
Definition fetch_emails (after before : option datetime) (days : option Z)
    (unread_only : bool) (labels : option (list str)) (max_results : Z)
  : prog (list Email.t) :=
  _ ← perform GetService;
  (* Build query *)
  query ← build_query after before days unread_only labels;
  _ ← perform (Print (py "Gmail query: " ++ query));
  (* Fetch message IDs *)
  results ← perform (MessagesList query max_results);
  let messages := default [] (messages results) in
  match messages with
  | [] =>
      _ ← perform (Print (py "No messages found matching the criteria."));
      Ret []
  | _ :: _ =>
      _ ← perform (Print (py "Found "
                          ++ decimal (N.of_nat (length messages))
                          ++ py " messages. Fetching details..."));
      (* Fetch full message details *)
      fetch_details messages []
  end.

(** The keyword arguments of a call [fetch_emails(...)]: [None] is an
    argument left out, which takes the default of the signature. *)
Record fetch_kwargs : Set := mk_kwargs {
  kw_after : option (option datetime);
  kw_before : option (option datetime);
  kw_days : option (option Z);
  kw_unread_only : option bool;
  kw_labels : option (option (list str));
  kw_max_results : option Z
}.

Definition call_fetch_emails (kw : fetch_kwargs) : prog (list Email.t) :=
  fetch_emails (default None (kw_after kw))
               (default None (kw_before kw))
               (default (Some 7) (kw_days kw))
               (default true (kw_unread_only kw))
               (default None (kw_labels kw))
               (default 100 (kw_max_results kw)).

End Fetch.

End GmailClient.
Import GmailClient.

(* ================================================================= *)
(** * JSON values, as [json.load] returns them *)

Module Json.

#[local] Unset Elimination Schemes.
Inductive json : Set :=
| JNull                                 (* None *)
| JBool (b : bool)
| JInt (z : Z)
| JFloat (x : float)
| JStr (s : str)
| JList (items : list json)
| JDict (items : list (str * json)).    (* keys in insertion order, distinct *)
#[local] Set Elimination Schemes.

(** Truth value of a loaded value. *)
Definition truthy (v : json) : bool :=
  match v with
  | JNull => false
  | JBool b => b
  | JInt z => negb (z =? 0)
  | JFloat x => negb (PrimFloat.eqb x 0)
  | JStr s => truthy_str s
  | JList l => match l with [] => false | _ => true end
  | JDict d => match d with [] => false | _ => true end
  end.

Fixpoint assoc (key : str) (items : list (str * json)) : option json :=
  match items with
  | [] => None
  | (k, v) :: rest => if str_eqb k key then Some v else assoc key rest
  end.

(** [data.get(key)]: the value, [None] for a missing key; only a dict has
    the method. *)
Definition get (data : json) (key : str) : result json :=
  match data with
  | JDict items => Ok (default JNull (assoc key items))
  | _ => Raise AttributeError
  end.

End Json.
Import Json.

(* ================================================================= *)
(** * src/utils/state.py *)

Module State.

Definition STATE_FILE : str := py ".last_run.json".

(** The part of the world that the store touches: the files of the working
    directory (path to text), the clock and the console. *)
Record world : Type := mk_world {
  files : gmap (list N) (list N);
  now : datetime;
  stdout : list str
}.

(** [os.path.exists(path)] *)
Definition exists_ (path : str) (w : world) : bool :=
  bool_decide (is_Some (files w !! path)).

(** [open(path, "r")] and reading the whole file *)
Definition read_text (path : str) (w : world) : result str :=
  match files w !! path with
  | Some content => Ok content
  | None => Raise OSError
  end.

(** [open(path, "w")] and writing [content] *)
Definition write_text (path content : str) (w : world) : world :=
  {| files := <[path := content]> (files w); now := now w; stdout := stdout w |}.

(** [os.remove(path)] *)
Definition remove (path : str) (w : world) : world :=
  {| files := delete path (files w); now := now w; stdout := stdout w |}.

(** [print(line)] *)
Definition print (line : str) (w : world) : world :=
  {| files := files w; now := now w; stdout := stdout w ++ [line] |}.

(** U+2713, the check mark of the messages. *)
Definition CHECK_MARK : N := 10003%N.

Section Store.

(** [json.dump(data, f, indent=2)] as the text written, and [json.load]. *)
Variable json_dumps : json -> str.
Variable json_loads : str -> result json.

(** [datetime.timestamp] and [datetime.fromtimestamp] of a naive datetime:
    they depend on the local time zone of the process. *)
Variable dt_timestamp : datetime -> float.
Variable fromtimestamp_float : float -> result datetime.
Variable fromtimestamp_int : Z -> result datetime.

(** [datetime.fromtimestamp(v)] for a loaded value [v]. *)
Definition fromtimestamp (v : json) : result datetime :=
  match v with
  | JFloat x => fromtimestamp_float x
  | JInt z => fromtimestamp_int z
  | JBool b => fromtimestamp_int (if b then 1 else 0)
  | _ => Raise TypeError
  end.

(** The body of the [try] statement of [get_last_run]: [Some] is the value
    of a [return] inside it, [None] is falling out of it. *)
Definition get_last_run_try (w : world) : result (option datetime) :=
  content ← read_text STATE_FILE w;
  data ← json_loads content;
  timestamp ← get data (py "last_run");
  if truthy timestamp then
    dt ← fromtimestamp timestamp;
    Ok (Some dt)
  else Ok None.

(** [except (json.JSONDecodeError, KeyError, ValueError)] *)
Definition caught (e : exn) : bool :=
  bool_decide (e = JSONDecodeError) || bool_decide (e = KeyError)
  || is_ValueError e.

(** [get_last_run] *)
Definition get_last_run (w : world) : result (option datetime) :=
  if negb (exists_ STATE_FILE w) then Ok None
  else
    match get_last_run_try w with
    | Ok (Some dt) => Ok (Some dt)
    | Ok None => Ok None
    | Raise e => if caught e then Ok None else Raise e
    end.

(** The document that [save_last_run] writes. *)
Definition marker (t : datetime) : json :=
  JDict [(py "last_run", JFloat (dt_timestamp t));
         (py "last_run_readable", JStr (isoformat t))].

(** [save_last_run] *)
Definition save_last_run (timestamp : option datetime) (w : world) : world :=
  let timestamp := default (now w) timestamp in
  let data := marker timestamp in
  let w := write_text STATE_FILE (json_dumps data) w in
  print (CHECK_MARK :: py " Saved last run: "
           ++ strftime (py "%Y-%m-%d %H:%M:%S") timestamp) w.

End Store.

(** [reset_last_run] *)
Definition reset_last_run (w : world) : world :=
  if exists_ STATE_FILE w then
    let w := remove STATE_FILE w in
    print (CHECK_MARK :: py " Reset last run timestamp") w
  else print (py "No state file to reset") w.

End State.

(* ================================================================= *)
(** * src/email/models.py: the text of an [Email] *)

Module Models.

(** The line feed of the format strings. *)
Definition NL : N := 10%N.

(** [Email.__str__] *)
Definition __str__ (self : Email.t) : str :=
  py "From: " ++ Email.sender self ++ py " <" ++ Email.sender_email self
    ++ py ">" ++ [NL]
  ++ py "Date: " ++ strftime (py "%Y-%m-%d %H:%M") (Email.date self) ++ [NL]
  ++ py "Subject: " ++ Email.subject self ++ [NL]
  ++ py "Preview: " ++ take 100 (Email.snippet self) ++ py "...".

End Models.

(* ================================================================= *)
(** * main.py

    The commands [fetch] and [reset] of the command line.  A command acts
    on the last-run store, on the world of the fetcher and on the terminal
    of [click].  Its own [print] and [datetime.now()] are calls of the
    kind that [fetch_emails] makes, and go through the same platform; the
    calls made through the platform are logged.  The lines that the
    functions of the store print stay in the world of the store. *)

Module Main.

Definition NL : N := Models.NL.

(** [str(n)] for an [int] *)
Definition str_int (n : Z) : str :=
  if n <? 0 then ch "-" :: decimal (Z.to_N (- n)) else decimal (Z.to_N n).

(** Truth value of an [Optional[datetime]]: a datetime is true. *)
Definition truthy_datetime (x : option datetime) : bool :=
  match x with Some _ => true | None => false end.

(** The rules ["=" * 70] and ["-" * 70]. *)
Definition rule (c : N) : str := repeat c 70.

(** What [click] does on the terminal.  A prompt returns the validated
    answer, or raises (the user aborts); output does not fail. *)
Record terminal (T : Type) : Type := mk_terminal {
  (* click.prompt(text, type=click.Choice(choices), default=default) *)
  prompt_choice : str -> list str -> str -> T -> result str * T;
  (* click.prompt(text, type=int, default=default) *)
  prompt_int : str -> Z -> T -> result Z * T;
  (* click.prompt(text, type=str) *)
  prompt_str : str -> T -> result str * T;
  (* click.confirm(text, default=default) *)
  confirm : str -> bool -> T -> result bool * T;
  (* click.echo(message) and click.echo(message, err=True) *)
  echo : str -> T -> T;
  echo_err : str -> T -> T;
  (* traceback.print_exc() while the exception is handled *)
  print_exc : exn -> T -> T
}.
Arguments prompt_choice {T} _ _ _ _ _.
Arguments prompt_int {T} _ _ _ _.
Arguments prompt_str {T} _ _ _.
Arguments confirm {T} _ _ _ _.
Arguments echo {T} _ _ _.
Arguments echo_err {T} _ _ _.
Arguments print_exc {T} _ _ _.

(** The state of a command: the store, the world of the fetcher, the
    terminal, and the calls made through the platform so far. *)
Record session (W T : Type) : Type := mk_session {
  store : State.world;
  mail : W;
  tty : T;
  calls : list event
}.
Arguments mk_session {W T} _ _ _ _.
Arguments store {W T} _.
Arguments mail {W T} _.
Arguments tty {W T} _.
Arguments calls {W T} _.

(** A step of a command: it returns or raises, and leaves a session. *)
Definition M (W T A : Type) : Type := session W T -> result A * session W T.

#[global] Instance M_ret {W T} : MRet (M W T) := fun A a s => (Ok a, s).
#[global] Instance M_bind {W T} : MBind (M W T) := fun A B f m s =>
  let '(r, s') := m s in
  match r with
  | Ok a => f a s'
  | Raise e => (Raise e, s')
  end.

Section Steps.

Context {W T : Type}.
Variable pf : platform W.
Variable tm : terminal T.

(** A program of the fetcher's kind, run on the world of the fetcher. *)
Definition exec {A} (p : prog A) : M W T A := fun s =>
  let '(r, m, tr) := run pf p (mail s) in
  (r, mk_session (store s) m (tty s) (calls s ++ tr)).

(** [print(line)] and [datetime.now()] *)
Definition print (line : str) : M W T unit := exec (perform (Print line)).
Definition datetime_now : M W T datetime := exec (perform Now).

(** A function of the store that returns a value, and one that returns
    nothing. *)
Definition reading {A} (f : State.world -> result A) : M W T A := fun s =>
  (f (store s), s).

Definition writing (f : State.world -> State.world) : M W T unit := fun s =>
  (Ok tt, mk_session (f (store s)) (mail s) (tty s) (calls s)).

(** A question to the terminal, and a message on it. *)
Definition asking {A} (f : T -> result A * T) : M W T A := fun s =>
  let '(r, t) := f (tty s) in
  (r, mk_session (store s) (mail s) t (calls s)).

Definition telling (f : T -> T) : M W T unit := fun s =>
  (Ok tt, mk_session (store s) (mail s) (f (tty s)) (calls s)).

(** A pure computation that may raise. *)
Definition raising {A} (r : result A) : M W T A := fun s => (r, s).

(** [try: body  except Exception as e: handler(e)] *)
Definition try_except {A} (body : M W T A) (handler : exn -> M W T A)
  : M W T A := fun s =>
  let '(r, s') := body s in
  match r with
  | Ok a => (Ok a, s')
  | Raise e => handler e s'
  end.

End Steps.

(** The symbols of the lines, and the lines used twice. *)
Definition MAILBOX : N := 128236%N.             (* U+1F4EC *)
Definition WRENCH : N := 128295%N.              (* U+1F527 *)
Definition STOPWATCH : str := [9201; 65039]%N.  (* U+23F1 U+FE0F *)
Definition CALENDAR : N := 128197%N.            (* U+1F4C5 *)
Definition NEW : N := 127381%N.                 (* U+1F195 *)
Definition CROSS : N := 10007%N.                (* U+2717 *)

Definition last_run_line (last_run : datetime) : str :=
  NL :: STOPWATCH ++ py "  Last run: "
    ++ strftime (py "%Y-%m-%d %H:%M:%S") last_run.

Definition CHOICE_TEXT : str :=
  (NL :: py "How would you like to fetch emails?")
  ++ (NL :: py "1) Since last run (incremental)")
  ++ (NL :: py "2) From last N days")
  ++ (NL :: py "3) Since specific date")
  ++ (NL :: py "Enter choice").

Section Cli.

Context {W T : Type}.
Variable pf : platform W.
Variable tm : terminal T.

(** The functions of the standard library that the fetcher and the store
    take. *)
Variable parsedate_to_datetime : str -> result datetime.
Variable json_dumps : json -> str.
Variable json_loads : str -> result json.
Variable dt_timestamp : datetime -> float.
Variable fromtimestamp_float : float -> result datetime.
Variable fromtimestamp_int : Z -> result datetime.

(** [datetime.strptime(date_string, format)] *)
Variable strptime : str -> str -> result datetime.

(** An exception of the model stands for the Python object: its class
    test [isinstance(e, FileNotFoundError)] and its text [str(e)] are
    taken from outside. *)
Variable is_FileNotFoundError : exn -> bool.
Variable str_exn : exn -> str.

Local Abbreviation print := (print (T:=T) pf).
Local Abbreviation get_last_run :=
  (reading (W:=W) (T:=T)
     (State.get_last_run json_loads fromtimestamp_float fromtimestamp_int)).
Local Abbreviation save_last_run :=
  (fun timestamp =>
     writing (W:=W) (T:=T) (State.save_last_run json_dumps dt_timestamp timestamp)).
Local Abbreviation fetch_emails :=
  (fun kw => exec (T:=T) pf (call_fetch_emails parsedate_to_datetime kw)).

(** Lines 56-108 of [fetch]: the options after the questions of the
    interactive mode, with the flag [save_state]. *)
Definition fetch_options (days : option Z) (since : option datetime)
    (unread_only interactive : bool)
  : M W T (option Z * option datetime * bool * bool) :=
  (* Track if we should save state (for incremental mode) *)
  let save_state := false in
  (* Interactive mode if no arguments provided *)
  if interactive && negb (truthy_int days) && negb (truthy_datetime since) then
    _ ← print (NL :: WRENCH :: py " Interactive Mode");
    _ ← print (rule (ch "-"));
    last_run ← get_last_run;
    '(days, since, save_state) ←
      match last_run with
      | Some last_run =>
          _ ← print (last_run_line last_run);
          choice ← asking (prompt_choice tm CHOICE_TEXT
                             [py "1"; py "2"; py "3"] (py "1"));
          if str_eqb choice (py "1") then
            _ ← print (NL :: CALENDAR :: py " Fetching emails since last run...");
            mret (days, Some last_run, true)
          else if str_eqb choice (py "2") then
            days ← asking (prompt_int tm (py "How many days back?") 7);
            mret (Some days, since, save_state)
          else
            date_str ← asking (prompt_str tm (py "Enter start date (YYYY-MM-DD)"));
            since ← raising (strptime date_str (py "%Y-%m-%d"));
            mret (days, Some since, save_state)
      | None =>
          _ ← print (NL :: NEW :: py " First run detected!");
          days ← asking (prompt_int tm (py "How many days of emails to fetch?") 7);
          (* Save state on first run *)
          mret (Some days, since, true)
      end;
    unread_filter ← asking (confirm tm (NL :: py "Fetch unread emails only?") true);
    mret (days, since, unread_filter, save_state)
  else
    (* Non-interactive mode with no date args = incremental *)
    if negb (truthy_int days) && negb (truthy_datetime since)
    then mret (days, since, unread_only, true)
    else mret (days, since, unread_only, save_state).

(** Lines 113-136: the call of [fetch_emails] that the options select. *)
Definition fetch_strategy (days : option Z) (since : option datetime)
    (unread_only : bool) (max_results : Z) : M W T (list Email.t) :=
  if truthy_int days then
    _ ← print (NL :: CALENDAR :: py " Fetching emails from last "
                 ++ str_int (default 0 days) ++ py " days..." ++ [NL]);
    fetch_emails (mk_kwargs None None (Some days) (Some unread_only) None
                    (Some max_results))
  else
    match since with
    | Some since_date =>
        _ ← print (NL :: CALENDAR :: py " Fetching emails since "
                     ++ strftime (py "%Y-%m-%d") since_date ++ py "..." ++ [NL]);
        fetch_emails (mk_kwargs (Some since) None None (Some unread_only) None
                        (Some max_results))
    | None =>
        (* Incremental mode *)
        last_run ← get_last_run;
        match last_run with
        | Some last_run_date =>
            _ ← print (last_run_line last_run_date);
            _ ← print (CALENDAR :: py " Fetching emails since last run..." ++ [NL]);
            fetch_emails (mk_kwargs (Some last_run) None None (Some unread_only)
                            None (Some max_results))
        | None =>
            _ ← print (NL :: NEW :: py " First run - fetching last 7 days..."
                         ++ [NL]);
            fetch_emails (mk_kwargs None None (Some (Some 7)) (Some unread_only)
                            None (Some max_results))
        end
    end.

(** Lines 145-149: the loop [for i, email in enumerate(emails, 1)]. *)
Fixpoint display_emails (i : Z) (emails : list Email.t) : prog unit :=
  match emails with
  | [] => Ret tt
  | email :: rest =>
      _ ← perform (Print (NL :: py "[" ++ str_int i ++ py "] " ++ Email.subject email));
      _ ← perform (Print (py "    From: " ++ Email.sender email ++ py " <"
                            ++ Email.sender_email email ++ py ">"));
      _ ← perform (Print (py "    Date: "
                            ++ strftime (py "%Y-%m-%d %H:%M:%S") (Email.date email)));
      _ ← perform (Print (py "    Preview: " ++ take 100 (Email.snippet email)
                            ++ py "..."));
      display_emails (i + 1) rest
  end.

(** Lines 139-151: the results. *)
Definition display_results (emails : list Email.t) : prog unit :=
  match emails with
  | [] => perform (Print (State.CHECK_MARK :: py " No emails found!"))
  | _ :: _ =>
      _ ← perform (Print (NL :: State.CHECK_MARK :: py " Found "
                            ++ str_int (Z.of_nat (length emails))
                            ++ py " email(s)"));
      _ ← perform (Print (rule (ch "-")));
      _ ← display_emails 1 emails;
      perform (Print (NL :: rule (ch "-")))
  end.

(** The body of the [try] statement of [fetch]. *)
Definition fetch_try (days : option Z) (since : option datetime)
    (unread_only : bool) (max_results : Z) (interactive : bool) : M W T unit :=
  '(days, since, unread_only, save_state) ←
    fetch_options days since unread_only interactive;
  (* Determine fetch strategy *)
  current_run ← datetime_now pf;
  emails ← fetch_strategy days since unread_only max_results;
  (* Display results *)
  _ ← exec pf (display_results emails);
  (* Save timestamp if in incremental mode *)
  if save_state : bool then
    _ ← print [];
    save_last_run (Some current_run)
  else mret tt.

(** The two [except] clauses of [fetch]. *)
Definition fetch_except (e : exn) : M W T unit :=
  if is_FileNotFoundError e then
    _ ← telling (echo_err tm (NL :: CROSS :: py " Error: " ++ str_exn e));
    _ ← telling (echo_err tm
                   (NL :: py "Please ensure your OAuth2 credentials file is in the project root."));
    telling (echo_err tm (py "See SETUP.md for instructions."))
  else
    _ ← telling (echo_err tm (NL :: CROSS :: py " Failed to fetch emails: "
                                ++ str_exn e));
    telling (print_exc tm e).

(** [fetch] *)
Definition fetch (days : option Z) (since : option datetime)
    (unread_only : bool) (max_results : Z) (interactive : bool) : M W T unit :=
  _ ← print (rule (ch "="));
  _ ← print (MAILBOX :: py " Action Items - Email Fetcher");
  _ ← print (rule (ch "="));
  try_except (fetch_try days since unread_only max_results interactive)
    fetch_except.

(** [reset] *)
Definition reset : M W T unit :=
  sure ← asking (confirm tm (py "Are you sure you want to reset the last run timestamp?")
                   false);
  if sure : bool then
    _ ← writing State.reset_last_run;
    _ ← telling (echo tm (NL :: State.CHECK_MARK
                            :: py " Last run timestamp has been reset"));
    telling (echo tm (py "Next fetch will retrieve emails from the last 7 days"))
  else telling (echo tm (py "Reset cancelled")).

End Cli.

End Main.

(* ================================================================= *)
(** * Reference implementations of the platform functions

    The functions that [State] and [GmailClient.fetch_emails] take as
    variables, for a process whose local time zone is UTC.  They are used
    to evaluate the code on concrete inputs. *)

Module Reference.

(** ** Floats: exact conversions *)

(** [float(z)] for an integer below [2^53] in absolute value (exact). *)
Definition float_of_Z (z : Z) : float :=
  match z with
  | Z0 => 0%float
  | Zpos p => SF2Prim (S754_finite false p 0)
  | Zneg p => SF2Prim (S754_finite true p 0)
  end.

(** [n / d] rounded to the nearest integer, ties to even ([d > 0]). *)
Definition round_half_even (n d : Z) : Z :=
  let q := n / d in
  let r := n mod d in
  if 2 * r <? d then q
  else if d <? 2 * r then q + 1
  else if Z.even q then q else q + 1.

(** The double nearest to [n / d], ties to even ([n >= 0], [d > 0]). *)
Definition float_of_ratio (n d : Z) : float :=
  if n =? 0 then 0%float
  else
    let e0 := Z.log2 n - Z.log2 d in
    let ge := if 0 <=? e0 then d * 2 ^ e0 <=? n else d <=? n * 2 ^ (- e0) in
    let e := if ge then e0 else e0 - 1 in        (* 2^e <= n/d < 2^(e+1) *)
    if 1023 <? e then infinity
    else
      let s := Z.min (52 - e) 1074 in
      let q := if 0 <=? s then round_half_even (n * 2 ^ s) d
               else round_half_even n (d * 2 ^ (- s)) in
      match q with
      | Zpos p => SF2Prim (S754_finite false p (- s))
      | _ => 0%float
      end.

(** The value [c * 10^(-k)] as a double ([c >= 0]). *)
Definition float_of_decimal (c k : Z) : float :=
  if 0 <=? k then float_of_ratio c (10 ^ k) else float_of_ratio (c * 10 ^ (- k)) 1.

(** The exact value of a finite float as a ratio: (negative?, n, d). *)
Definition ratio_of_float (x : float) : option (bool * Z * Z) :=
  match Prim2SF x with
  | S754_zero s => Some (s, 0, 1)
  | S754_finite s m e =>
      if 0 <=? e then Some (s, Z.pos m * 2 ^ e, 1)
      else Some (s, Z.pos m, 2 ^ (- e))
  | _ => None
  end.

(** ** [datetime.timestamp] and [datetime.fromtimestamp] in UTC *)

Definition EPOCH_ORDINAL : Z := 719163.     (* date(1970, 1, 1).toordinal() *)

Definition utc_seconds (dt : datetime) : Z :=
  (toordinal dt - EPOCH_ORDINAL) * 86400
  + hour dt * 3600 + minute dt * 60 + second dt.

(** [seconds + microsecond / 1e6], in double arithmetic. *)
Definition utc_timestamp (dt : datetime) : float :=
  (float_of_Z (utc_seconds dt) + float_of_Z (microsecond dt) / 1000000)%float.

(** The datetime of a count of seconds since the epoch and microseconds;
    [ValueError] for a year out of range. *)
Definition utc_datetime (secs us : Z) : result datetime :=
  let o := secs / 86400 + EPOCH_ORDINAL in
  let r := secs mod 86400 in
  if (0 <? o) && (o <=? MAXORDINAL) then
    let '(y, m, d) := ord2ymd o in
    Ok (mk_datetime y m d (r / 3600) (r mod 3600 / 60) (r mod 60) us)
  else Raise ValueError.

Definition utc_fromtimestamp_int (z : Z) : result datetime :=
  if (Z.abs z <? 2 ^ 63) then utc_datetime z 0 else Raise OverflowError.

(** The float is split into its integral and fractional parts ([modf]);
    the fraction times [1e6], a double product, is rounded half to even. *)
Definition utc_fromtimestamp_float (x : float) : result datetime :=
  if is_nan x then Raise ValueError
  else
    match ratio_of_float x with
    | None => Raise OverflowError
    | Some (neg, n, d) =>
        let ipart := if neg then - (n / d) else n / d in
        let fpart :=
          let f := float_of_ratio (n mod d) d in
          if neg then (- f)%float else f in
        let scaled := (fpart * 1000000)%float in
        match ratio_of_float scaled with
        | None => Raise OverflowError
        | Some (neg', n', d') =>
            let us := round_half_even (if neg' then - n' else n') d' in
            let '(secs, us) :=
              if 1000000 <=? us then (ipart + 1, us - 1000000)
              else if us <? 0 then (ipart - 1, us + 1000000)
              else (ipart, us) in
            if Z.abs secs <? 2 ^ 63 then utc_datetime secs us
            else Raise OverflowError
        end
    end.

(** ** [json.dumps(data, indent=2)] *)

Definition BACKSLASH : N := 92%N.

Definition hex_digit (n : N) : N :=
  (if n <? 10 then 48 + n else 87 + n)%N.

Definition hex4 (n : N) : str :=
  [hex_digit (n / 4096 mod 16); hex_digit (n / 256 mod 16);
   hex_digit (n / 16 mod 16); hex_digit (n mod 16)]%N.

Definition unicode_escape (n : N) : str := BACKSLASH :: ch "u" :: hex4 n.

(** One character of a string, with [ensure_ascii]. *)
Definition escape_char (c : N) : str :=
  (if c =? QUOTE then [BACKSLASH; QUOTE]
   else if c =? BACKSLASH then [BACKSLASH; BACKSLASH]
   else if c =? 10 then [BACKSLASH; ch "n"]
   else if c =? 13 then [BACKSLASH; ch "r"]
   else if c =? 9 then [BACKSLASH; ch "t"]
   else if c =? 8 then [BACKSLASH; ch "b"]
   else if c =? 12 then [BACKSLASH; ch "f"]
   else if (32 <=? c) && (c <=? 126) then [c]
   else if c <? 65536 then unicode_escape c
   else unicode_escape (55296 + (c - 65536) / 1024)
        ++ unicode_escape (56320 + (c - 65536) mod 1024))%N.

Definition dump_str (s : str) : str :=
  QUOTE :: flat_map escape_char s ++ [QUOTE].

Definition dump_int (z : Z) : str :=
  if z <? 0 then ch "-" :: decimal (Z.to_N (- z)) else decimal (Z.to_N z).

(** [floor(log10(n / d))] for positive [n] and [d]. *)
Fixpoint neg_log10 (fuel : nat) (j n d : Z) : Z :=
  match fuel with
  | O => - j
  | S fuel' => if d <=? n * 10 ^ j then - j else neg_log10 fuel' (j + 1) n d
  end.

Definition floor_log10 (n d : Z) : Z :=
  if d <=? n then Z.of_nat (length (decimal (Z.to_N (n / d)))) - 1
  else neg_log10 400 1 n d.

(** The shortest decimal [c * 10^(-k)] that reads back as [x], trying
    [nd], [nd + 1], ... significant digits. *)
Fixpoint shortest (fuel : nat) (nd : Z) (x : float) (n d dec10 : Z) : Z * Z :=
  let k := nd - 1 - dec10 in
  let c := if 0 <=? k then round_half_even (n * 10 ^ k) d
           else round_half_even n (d * 10 ^ (- k)) in
  match fuel with
  | O => (c, k)
  | S fuel' =>
      if PrimFloat.eqb (float_of_decimal c k) x then (c, k)
      else shortest fuel' (nd + 1) x n d dec10
  end.

Fixpoint strip_zeros (fuel : nat) (c k : Z) : Z * Z :=
  match fuel with
  | O => (c, k)
  | S fuel' =>
      if (c mod 10 =? 0) && negb (c =? 0) then strip_zeros fuel' (c / 10) (k - 1)
      else (c, k)
  end.

(** [repr] of a positive finite float given as the ratio [n / d]. *)
Definition repr_positive (x : float) (n d : Z) : str :=
  let '(c, k) := shortest 16 1 x n d (floor_log10 n d) in
  let '(c, k) := strip_zeros 20 c k in
  let digits := decimal (Z.to_N c) in
  let len := Z.of_nat (length digits) in
  let decpt := len - k in
  if (-4 <? decpt) && (decpt <=? 16) then
    if decpt <=? 0 then
      py "0." ++ repeat 48%N (Z.to_nat (- decpt)) ++ digits
    else if len <=? decpt then
      digits ++ repeat 48%N (Z.to_nat (decpt - len)) ++ py ".0"
    else take (Z.to_nat decpt) digits ++ ch "." :: drop (Z.to_nat decpt) digits
  else
    let e := decpt - 1 in
    take 1 digits
    ++ (if len =? 1 then [] else ch "." :: drop 1 digits)
    ++ ch "e" :: (if e <? 0 then ch "-" else ch "+") :: zpad 2 (Z.abs e).

Definition dump_float (x : float) : str :=
  if is_nan x then py "NaN"
  else
    match ratio_of_float x with
    | None => if PrimFloat.ltb x 0 then py "-Infinity" else py "Infinity"
    | Some (neg, n, d) =>
        (if neg then [ch "-"] else [])
        ++ (if n =? 0 then py "0.0" else repr_positive (abs x) n d)
    end.

(** A new line and the indentation of a nesting level. *)
Definition newline_indent (level : nat) : str :=
  10%N :: repeat SPACE (2 * level).

Definition dump_block (opening closing : N) (level : nat) (items : list str) : str :=
  match items with
  | [] => [opening; closing]
  | _ =>
      opening :: newline_indent (S level)
      ++ join (ch "," :: newline_indent (S level)) items
      ++ newline_indent level ++ [closing]
  end.

Fixpoint dump (level : nat) (v : json) : str :=
  match v with
  | JNull => py "null"
  | JBool true => py "true"
  | JBool false => py "false"
  | JInt z => dump_int z
  | JFloat x => dump_float x
  | JStr s => dump_str s
  | JList items => dump_block (ch "[") (ch "]") level (map (dump (S level)) items)
  | JDict items =>
      dump_block (ch "{") (ch "}") level
        (map (fun '(k, v) => dump_str k ++ py ": " ++ dump (S level) v) items)
  end.

Definition json_dumps (v : json) : str := dump 0 v.

(** ** [json.loads] *)

Definition is_ws (c : N) : bool :=
  ((c =? 32) || (c =? 9) || (c =? 10) || (c =? 13))%N.

Definition skip_ws (s : str) : str := lstrip_by is_ws s.

Definition is_digit (c : N) : bool := ((48 <=? c) && (c <=? 57))%N.

(** The leading digits of [s] and what follows them. *)
Fixpoint span_digits (s : str) : str * str :=
  match s with
  | c :: r => if is_digit c then let '(ds, r') := span_digits r in (c :: ds, r')
              else ([], s)
  | [] => ([], [])
  end.

Definition digits_value (ds : str) : Z :=
  fold_left (fun acc c => acc * 10 + Z.of_N (c - 48)) ds 0.

Definition hex_value (c : N) : option N :=
  (if is_digit c then Some (c - 48)
   else if (97 <=? c) && (c <=? 102) then Some (c - 87)
   else if (65 <=? c) && (c <=? 70) then Some (c - 55)
   else None)%N.

(** Four hexadecimal digits at the head of [s]. *)
Definition read_hex4 (s : str) : option (N * str) :=
  match s with
  | a :: b :: c :: d :: r =>
      va ← hex_value a; vb ← hex_value b; vc ← hex_value c; vd ← hex_value d;
      Some (va * 4096 + vb * 256 + vc * 16 + vd, r)%N
  | _ => None
  end.

(** The escape after a backslash: the character [e] and the text after
    it; the result is the code point and the text that remains. *)
Definition read_escape (e : N) (r : str) : option (N * str) :=
  (if e =? QUOTE then Some (QUOTE, r)
   else if e =? BACKSLASH then Some (BACKSLASH, r)
   else if e =? ch "/" then Some (ch "/", r)
   else if e =? ch "b" then Some (8, r)
   else if e =? ch "f" then Some (12, r)
   else if e =? ch "n" then Some (10, r)
   else if e =? ch "r" then Some (13, r)
   else if e =? ch "t" then Some (9, r)
   else if e =? ch "u" then
     '(hi, r1) ← read_hex4 r;
     if (55296 <=? hi) && (hi <=? 56319) then
       (* a high surrogate joins a low one that follows *)
       match r1 with
       | b :: u :: r2 =>
           if (b =? BACKSLASH) && (u =? ch "u") then
             match read_hex4 r2 with
             | Some (lo, r3) =>
                 if (56320 <=? lo) && (lo <=? 57343)
                 then Some (65536 + (hi - 55296) * 1024 + (lo - 56320), r3)
                 else Some (hi, r1)
             | None => Some (hi, r1)
             end
           else Some (hi, r1)
       | _ => Some (hi, r1)
       end
     else Some (hi, r1)
   else None)%N.

(** The text after an opening quote, up to the closing one.  [fuel] bounds
    the number of characters. *)
Fixpoint read_string (fuel : nat) (s : str) (acc : str) : result (str * str) :=
  match fuel, s with
  | S fuel', c :: r =>
      if (c =? QUOTE)%N then Ok (rev acc, r)
      else if (c =? BACKSLASH)%N then
        match r with
        | e :: r' =>
            match read_escape e r' with
            | Some (cp, r'') => read_string fuel' r'' (cp :: acc)
            | None => Raise JSONDecodeError
            end
        | [] => Raise JSONDecodeError
        end
      else if (c <? 32)%N then Raise JSONDecodeError
      else read_string fuel' r (c :: acc)
  | _, _ => Raise JSONDecodeError
  end.

(** A number at the head of [s]: an [int] without fraction and exponent,
    a [float] otherwise. *)
Definition read_number (s : str) : result (json * str) :=
  let '(neg, s1) :=
    match s with
    | c :: r => if (c =? ch "-")%N then (true, r) else (false, s)
    | [] => (false, s)
    end in
  let '(int_digits, s2) :=
    match s1 with
    | c :: r => if (c =? 48)%N then ([c], r) else span_digits s1
    | [] => ([], s1)
    end in
  match int_digits with
  | [] => Raise JSONDecodeError
  | _ =>
      let '(frac, s3) :=
        match s2 with
        | c :: r =>
            if (c =? ch ".")%N then
              match span_digits r with
              | ([], _) => (None, s2)
              | (ds, r') => (Some ds, r')
              end
            else (None, s2)
        | [] => (None, s2)
        end in
      let '(expo, s4) :=
        match s3 with
        | c :: r =>
            if ((c =? ch "e") || (c =? ch "E"))%N then
              let '(eneg, r1) :=
                match r with
                | sg :: r' => if (sg =? ch "-")%N then (true, r')
                              else if (sg =? ch "+")%N then (false, r')
                              else (false, r)
                | [] => (false, r)
                end in
              match span_digits r1 with
              | ([], _) => (None, s3)
              | (ds, r') =>
                  (Some (if eneg then - digits_value ds else digits_value ds), r')
              end
            else (None, s3)
        | [] => (None, s3)
        end in
      match frac, expo with
      | None, None =>
          let v := digits_value int_digits in
          Ok (JInt (if neg then - v else v), s4)
      | _, _ =>
          let fd := default [] frac in
          let c := digits_value (int_digits ++ fd) in
          let k := Z.of_nat (length fd) - default 0 expo in
          let x := float_of_decimal c k in
          Ok (JFloat (if neg then (- x)%float else x), s4)
      end
  end.

(** [s] starts with the literal [lit]: what follows it. *)
Fixpoint after_literal (lit s : str) : option str :=
  match lit, s with
  | [], _ => Some s
  | a :: lit', b :: s' => if (a =? b)%N then after_literal lit' s' else None
  | _ :: _, [] => None
  end.

(** [d[key] = v] on a dict in insertion order. *)
Fixpoint dict_set (key : str) (v : json) (items : list (str * json))
  : list (str * json) :=
  match items with
  | [] => [(key, v)]
  | (k, v') :: rest =>
      if str_eqb k key then (k, v) :: rest else (k, v') :: dict_set key v rest
  end.

(** A value at the head of [s]; the elements of an array after its
    bracket; the members of an object after its brace. *)
Fixpoint read_value (fuel : nat) (s : str) : result (json * str) :=
  match fuel with
  | O => Raise JSONDecodeError
  | S fuel' =>
      match s with
      | [] => Raise JSONDecodeError
      | c :: r =>
          if (c =? QUOTE)%N then
            '(str_value, r') ← read_string (length r) r [];
            Ok (JStr str_value, r')
          else if (c =? ch "{")%N then
            match skip_ws r with
            | c' :: r' =>
                if (c' =? ch "}")%N then Ok (JDict [], r')
                else read_members fuel' (skip_ws r) []
            | [] => Raise JSONDecodeError
            end
          else if (c =? ch "[")%N then
            match skip_ws r with
            | c' :: r' =>
                if (c' =? ch "]")%N then Ok (JList [], r')
                else read_elements fuel' (skip_ws r) []
            | [] => Raise JSONDecodeError
            end
          else
            match after_literal (py "null") s with
            | Some r' => Ok (JNull, r')
            | None =>
            match after_literal (py "true") s with
            | Some r' => Ok (JBool true, r')
            | None =>
            match after_literal (py "false") s with
            | Some r' => Ok (JBool false, r')
            | None =>
            match after_literal (py "NaN") s with
            | Some r' => Ok (JFloat nan, r')
            | None =>
            match after_literal (py "Infinity") s with
            | Some r' => Ok (JFloat infinity, r')
            | None =>
            match after_literal (py "-Infinity") s with
            | Some r' => Ok (JFloat neg_infinity, r')
            | None => read_number s
            end end end end end end
      end
  end
with read_elements (fuel : nat) (s : str) (acc : list json)
  : result (json * str) :=
  match fuel with
  | O => Raise JSONDecodeError
  | S fuel' =>
      '(v, r) ← read_value fuel' s;
      match skip_ws r with
      | c :: r' =>
          if (c =? ch ",")%N then read_elements fuel' (skip_ws r') (acc ++ [v])
          else if (c =? ch "]")%N then Ok (JList (acc ++ [v]), r')
          else Raise JSONDecodeError
      | [] => Raise JSONDecodeError
      end
  end
with read_members (fuel : nat) (s : str) (acc : list (str * json))
  : result (json * str) :=
  match fuel with
  | O => Raise JSONDecodeError
  | S fuel' =>
      match s with
      | q :: r0 =>
          if (q =? QUOTE)%N then
            '(key, r1) ← read_string (length r0) r0 [];
            match skip_ws r1 with
            | colon :: r2 =>
                if (colon =? ch ":")%N then
                  '(v, r3) ← read_value fuel' (skip_ws r2);
                  match skip_ws r3 with
                  | c :: r4 =>
                      if (c =? ch ",")%N then
                        read_members fuel' (skip_ws r4) (dict_set key v acc)
                      else if (c =? ch "}")%N then
                        Ok (JDict (dict_set key v acc), r4)
                      else Raise JSONDecodeError
                  | [] => Raise JSONDecodeError
                  end
                else Raise JSONDecodeError
            | [] => Raise JSONDecodeError
            end
          else Raise JSONDecodeError
      | [] => Raise JSONDecodeError
      end
  end.

(** [json.loads(s)]: one value, white space around it, and nothing else. *)
Definition json_loads (s : str) : result json :=
  '(v, r) ← read_value (S (length s)) (skip_ws s);
  match skip_ws r with
  | [] => Ok v
  | _ :: _ => Raise JSONDecodeError
  end.

(** ** [email.utils.parsedate_to_datetime]

    The usual form of a Date header, [Mon, 29 Sep 2025 10:00:00 +0000],
    with the day of the week and the zone optional.  The zone is read and
    not kept: a [datetime] here is naive.  Anything else is a
    [ValueError]. *)

Definition MONTHS : list str :=
  [py "jan"; py "feb"; py "mar"; py "apr"; py "may"; py "jun";
   py "jul"; py "aug"; py "sep"; py "oct"; py "nov"; py "dec"].

Fixpoint position (name : str) (names : list str) (i : Z) : option Z :=
  match names with
  | [] => None
  | n :: rest => if str_eqb n name then Some i else position name rest (i + 1)
  end.

Definition read_digits (s : str) : option Z :=
  match s with
  | [] => None
  | _ => if forallb is_digit s then Some (digits_value s) else None
  end.

Definition ends_with (c : N) (s : str) : bool :=
  match rev s with
  | c' :: _ => (c' =? c)%N
  | [] => false
  end.

Definition parsedate_to_datetime (s : str) : result datetime :=
  let tokens := filter (fun t => t <> []) (split SPACE (strip s)) in
  let tokens :=
    match tokens with
    | t :: rest => if ends_with (ch ",") t then rest else tokens
    | [] => []
    end in
  match tokens with
  | d :: mon :: y :: time :: _ =>
      match read_digits d, position (lower mon) MONTHS 1, read_digits y,
            map read_digits (split (ch ":") time) with
      | Some dd, Some mm, Some yy, [Some h; Some mi; Some sec] =>
          if (MINYEAR <=? yy) && (yy <=? MAXYEAR)
             && (1 <=? dd) && (dd <=? days_in_month yy mm)
             && (h <? 24) && (mi <? 60) && (sec <? 60)
          then Ok (mk_datetime yy mm dd h mi sec 0)
          else Raise ValueError
      | _, _, _, _ => Raise ValueError
      end
  | _ => Raise ValueError
  end.

(** ** A mail service for tests

    A world with a clock that advances by one second per reading, a
    mailbox, and the lines printed.  [messages().list] returns the
    references of the mailbox in order, up to the cap; [messages().get]
    returns the message of that id. *)

Record fake_world : Set := mk_fake {
  fake_clock : datetime;
  fake_mailbox : list message;
  fake_stdout : list str
}.

Definition tick (t : datetime) : datetime :=
  default t (match utc_fromtimestamp_int (utc_seconds t + 1) with
             | Ok t' => Some t'
             | Raise _ => None
             end).

Definition fake_list (q : str) (max_results : Z) (w : fake_world)
  : result list_response * fake_world :=
  let refs :=
    map (fun m => mk_ref (msg_id m) (msg_threadId m))
        (take (Z.to_nat max_results) (fake_mailbox w)) in
  (Ok (mk_list_response (match refs with [] => None | _ => Some refs end)), w).

Definition fake_get (i : str) (w : fake_world) : result message * fake_world :=
  match List.find (fun m => str_eqb (msg_id m) i) (fake_mailbox w) with
  | Some m => (Ok m, w)
  | None => (Raise HttpError, w)
  end.

Definition fake_platform : platform fake_world :=
  {| clock := fun w =>
       (fake_clock w,
        mk_fake (tick (fake_clock w)) (fake_mailbox w) (fake_stdout w));
     console := fun line w =>
       mk_fake (fake_clock w) (fake_mailbox w) (fake_stdout w ++ [line]);
     service := fun w => (Ok tt, w);
     list_messages := fake_list;
     get_message := fake_get |}.

End Reference.

Import State Reference.

(** ** A terminal for tests

    The answers of the user are scripted and the messages are kept.  An
    answer of the wrong kind, or the end of the script, is the user
    pressing Enter: the default is taken; the prompt without a default
    fails. *)

Inductive answer : Set :=
| Choose (choice : str)
| Number (n : Z)
| Text (s : str)
| YesNo (b : bool).

Record script : Set := mk_script {
  answers : list answer;
  shown : list str
}.

Definition next_answer {A} (pick : answer -> option A) (otherwise : result A)
    (text : str) (t : script) : result A * script :=
  match answers t with
  | a :: rest =>
      (match pick a with Some x => Ok x | None => otherwise end,
       mk_script rest (shown t ++ [text]))
  | [] => (otherwise, mk_script [] (shown t ++ [text]))
  end.

Definition scripted : Main.terminal script :=
  {| Main.prompt_choice := fun text choices default =>
       next_answer (fun a => match a with Choose c => Some c | _ => None end)
         (Ok default) text;
     Main.prompt_int := fun text default =>
       next_answer (fun a => match a with Number n => Some n | _ => None end)
         (Ok default) text;
     Main.prompt_str := fun text =>
       next_answer (fun a => match a with Text s => Some s | _ => None end)
         (Raise OSError) text;
     Main.confirm := fun text default =>
       next_answer (fun a => match a with YesNo b => Some b | _ => None end)
         (Ok default) text;
     Main.echo := fun message t => mk_script (answers t) (shown t ++ [message]);
     Main.echo_err := fun message t => mk_script (answers t) (shown t ++ [message]);
     Main.print_exc := fun e t => t |}.

(** [datetime.strptime(s, "%Y-%m-%d")] on dates written in full. *)
Definition strptime_ymd (s fmt : str) : result datetime :=
  match map read_digits (split (ch "-") s) with
  | [Some y; Some m; Some d] =>
      if (MINYEAR <=? y) && (y <=? MAXYEAR) && (1 <=? m) && (m <=? 12)
         && (1 <=? d) && (d <=? days_in_month y m)
      then Ok (mk_datetime y m d 0 0 0 0)
      else Raise ValueError
  | _ => Raise ValueError
  end.

(* ================================================================= *)
(** * Vocabulary of the statements *)

(** The header holds an address between angle brackets: a [<] with a [>]
    somewhere after it. *)
Definition angle_bracketed (header : str) : Prop :=
  exists pre addr post, header = pre ++ [LT] ++ addr ++ [GT] ++ post.

(** What follows the first [c] of [s]. *)
Fixpoint after_first (c : N) (s : str) : str :=
  match s with
  | [] => []
  | x :: s' => if N.eqb x c then s' else after_first c s'
  end.

(** The terms of a query, by kind. *)
Definition unread_terms (unread_only : bool) : list str :=
  if unread_only then [py "is:unread"] else [].

Definition label_terms (labels : option (list str)) : list str :=
  map (fun label => py "label:" ++ label) (default [] labels).

Definition range_terms (after before : option datetime) : list str :=
  match after with Some a => [date_term (py "after:") a] | None => [] end
  ++ match before with Some b => [date_term (py "before:") b] | None => [] end.

Definition TEXT_PLAIN : str := py "text/plain".
Definition TEXT_HTML : str := py "text/html".

(** A content leaf: a part of the given type with inline data and no
    children. *)
Definition leaf (mime : str) (hs : list header) (d : str) : payload :=
  Payload (Some mime) hs (Some (mk_body (Some d))) None.


(** The tests of the loop on one child. *)
Definition plain_with_data (part : payload) : bool :=
  str_eqb (mime_type_of part) TEXT_PLAIN && has_data part.

Definition html_with_data (part : payload) : bool :=
  str_eqb (mime_type_of part) TEXT_HTML && has_data part.

(** The value of [body] after the HTML step of the loop on [part]. *)
Definition html_step (part : payload) (body : str) : result str :=
  if html_with_data part then d ← body_data part; decode_data d else Ok body.

(** A child that the loop passes without returning or raising: it is not
    plain text with data, its HTML data (if any) decodes, and the
    recursion into it (if it has parts) yields the empty string. *)
Definition passes (part : payload) : Prop :=
  plain_with_data part = false
  /\ (forall body, exists body', html_step part body = Ok body')
  /\ (has_parts part = true -> get_email_body part = Ok []).

(** The HTML fallback after the children [parts], from [body]: the decoded
    data of the last HTML child with data, or [body]. *)
Fixpoint fallback (parts : list payload) (body : str) : str :=
  match parts with
  | [] => body
  | part :: rest =>
      fallback rest (match html_step part body with
                     | Ok body' => body'
                     | Raise _ => body
                     end)
  end.


(** Every inline data segment of a payload tree. *)
Fixpoint data_of (p : payload) : list str :=
  match p with
  | Payload _ _ b ps =>
      match b with
      | Some (mk_body (Some d)) => [d]
      | _ => []
      end
      ++ match ps with
         | Some parts => flat_map data_of parts
         | None => []
         end
  end.


(** Induction on payload trees. *)
Fixpoint payload_ind (P : payload -> Prop)
    (step : forall mt hs b ps,
        match ps with Some parts => Forall P parts | None => True end ->
        P (Payload mt hs b ps))
    (p : payload) {struct p} : P p :=
  match p with
  | Payload mt hs b ps =>
      step mt hs b ps
        match ps as o
              return match o with Some parts => Forall P parts | None => True end
        with
        | Some parts =>
            (fix all (l : list payload) : Forall P l :=
               match l with
               | [] => List.Forall_nil P
               | x :: r => List.Forall_cons P x r (payload_ind P step x) (all r)
               end) parts
        | None => I
        end
  end.


(** The value of a header of a fetched message. *)
Definition header_of (msg : message) (name : str) : str :=
  get_header_value (p_headers (msg_payload msg)) name.

(** The [Email] built from a fetched message, its parsed sender, its date
    and its decoded body. *)
Definition email_of (msg : message) (sender : str * str) (date : datetime)
    (body : str) : Email.t :=
  {| Email.id := msg_id msg;
     Email.thread_id := msg_threadId msg;
     Email.subject :=
       if truthy_str (header_of msg (py "Subject"))
       then header_of msg (py "Subject") else py "(No subject)";
     Email.sender := sender.1;
     Email.sender_email := sender.2;
     Email.recipient := header_of msg (py "To");
     Email.date := date;
     Email.snippet := default [] (msg_snippet msg);
     Email.body := body;
     Email.labels := default [] (msg_labelIds msg);
     Email.is_unread :=
       mem_str (py "UNREAD") (default [] (msg_labelIds msg)) |}.

(** [e] is the normalized form of the message [msg]. *)
Definition normalized (msg : message) (e : Email.t) : Prop :=
  exists sender date body,
    parse_email_address (header_of msg (py "From")) = Ok sender
    /\ get_email_body (msg_payload msg) = Ok body
    /\ e = email_of msg sender date body.

(** The calls of [messages().get] with their outcomes, and those of
    [messages().list], in order. *)
Definition get_events (tr : list event) : list (str * result message) :=
  omap (fun ev => match ev with EvGet i r => Some (i, r) | _ => None end) tr.

Definition list_events (tr : list event)
  : list (str * Z * result list_response) :=
  omap (fun ev => match ev with EvList q n r => Some (q, n, r) | _ => None end) tr.

Definition NO_MESSAGES : str := py "No messages found matching the criteria.".

Definition found_line (messages : list msg_ref) : str :=
  py "Found " ++ decimal (N.of_nat (length messages))
  ++ py " messages. Fetching details...".

(** The error of a recorded call that failed. *)
Definition error_of (ev : event) : option exn :=
  match ev with
  | EvNow (Raise e) | EvService (Raise e)
  | EvList _ _ (Raise e) | EvGet _ (Raise e) => Some e
  | _ => None
  end.

(** The ids asked of [messages().get], in order. *)
Definition get_ids (tr : list event) : list str := map fst (get_events tr).

(** A child that the loop of [get_email_body] steps over: it is not plain
    text with data, not HTML with data, and it has no children.  An
    attachment is such a part. *)
Definition skipped (part : payload) : Prop :=
  plain_with_data part = false /\ html_with_data part = false
  /\ has_parts part = false.

(** The text [s] is the decoding of one of the data segments. *)
Definition decoded_from (segments : list str) (s : str) : Prop :=
  exists d, d ∈ segments /\ decode_data d = Ok s.

(** What [lstrip] returns is empty or starts with a character to keep. *)
Definition starts_kept (p : N -> bool) (s : str) : Prop :=
  match s with [] => True | c :: _ => p c = false end.

(** The digits. *)
Definition is_digit_char (c : N) : Prop := (48 <= c <= 57)%N.

(** An operation that writes the store: [save_last_run(timestamp)] or
    [reset_last_run()]. *)
Inductive store_op : Set :=
| Save (timestamp : option datetime)
| Reset.

Definition apply_op (json_dumps : json -> str) (dt_timestamp : datetime -> float)
    (op : store_op) (w : world) : world :=
  match op with
  | Save timestamp => save_last_run json_dumps dt_timestamp timestamp w
  | Reset => reset_last_run w
  end.

(** A sequence of such operations, first operation first. *)
Definition apply_ops (json_dumps : json -> str) (dt_timestamp : datetime -> float)
    (ops : list store_op) (w : world) : world :=
  foldl (fun w op => apply_op json_dumps dt_timestamp op w) w ops.

(** The sender as [Email.__str__] and the command [fetch] show it. *)
Definition sender_line (email : Email.t) : str :=
  Email.sender email ++ py " <" ++ Email.sender_email email ++ py ">".

(** A recorded [print]. *)
Definition is_print (ev : event) : Prop :=
  match ev with EvPrint _ => True | _ => False end.

(** A step of a command leaves the store alone, and the calls that it adds
    to the log all satisfy [Q]. *)
Definition logs {W T} (Q : event -> Prop) (s s' : Main.session W T) : Prop :=
  Main.store s' = Main.store s
  /\ exists tr, Main.calls s' = Main.calls s ++ tr /\ Forall Q tr.

(** Every run of the step [m] relates the session before to the session
    after. *)
Definition keeps {W T A} (R : relation (Main.session W T)) (m : Main.M W T A)
  : Prop :=
  forall s r s', m s = (r, s') -> R s s'.




(* ================================================================= *)
(** * Inputs of the examples *)

(** A world of the test service: no mail, the clock at 6 October 2025,
    noon. *)
Definition noon_2025_10_06 : datetime := mk_datetime 2025 10 6 12 0 0 0.
Definition new_year_2025 : datetime := mk_datetime 2025 1 1 0 0 0 0.
Definition empty_mailbox : fake_world := mk_fake noon_2025_10_06 [] [].

(** A message with an HTML part ([<b>hi</b>]) listed before its plain
    part ([hello]), as the service returns them. *)
Definition html_hi : str := py "PGI-aGk8L2I-".
Definition plain_hello : str := py "aGVsbG8=".


(** Two messages of the test service: an HTML and a plain part with a
    Date header; a nested plain part without one. *)
Definition msg_dated : message :=
  mk_message (py "m1") (py "t1")
    (Payload (Some (py "multipart/alternative"))
       [mk_header (py "Subject") (py "Hi");
        mk_header (py "from") (py "John Doe <john@example.com>");
        mk_header (py "Date") (py "Mon, 29 Sep 2025 10:00:00 +0000")]
       (Some (mk_body None))
       (Some [leaf TEXT_HTML [] html_hi; leaf TEXT_PLAIN [] plain_hello]))
    (Some (py "hello")) (Some [py "UNREAD"; py "INBOX"]).

Definition msg_undated : message :=
  mk_message (py "m2") (py "t2")
    (Payload (Some (py "multipart/mixed"))
       [mk_header (py "From") (py "jane@example.com")]
       (Some (mk_body None))
       (Some [Payload (Some (py "multipart/alternative")) [] None
                (Some [leaf TEXT_PLAIN [] plain_hello])]))
    None None.

(** A message whose Date header is not a date. *)
Definition msg_bad_date : message :=
  mk_message (py "m3") (py "t3")
    (Payload (Some TEXT_PLAIN)
       [mk_header (py "From") (py "jane@example.com");
        mk_header (py "Date") (py "not a date")]
       (Some (mk_body (Some plain_hello))) None)
    None None.

Definition two_messages : fake_world :=
  mk_fake noon_2025_10_06 [msg_dated; msg_undated] [].

(** The call [fetch_emails(after=datetime(2025, 1, 1))]. *)
Definition after_only : fetch_kwargs :=
  mk_kwargs (Some (Some new_year_2025)) None None None None None.

(** A world without files. *)
Definition fresh_world : world := mk_world ∅ noon_2025_10_06 [].

Definition morning_2025_09_29 : datetime := mk_datetime 2025 9 29 10 0 0 123456.

(** A JSON text of the examples, written with ['] for the double quote. *)
Definition json_text (s : string) : str :=
  map (fun c => if (c =? 39)%N then QUOTE else c) (py s).
Arguments json_text s%_string.

Definition world_with_marker (content : str) : world :=
  mk_world {[ STATE_FILE := content ]} noon_2025_10_06 [].

(** A part that carries an attachment with inline data. *)
Definition attachment : payload :=
  Payload (Some (py "application/pdf")) [] (Some (mk_body (Some (py "JVBERi0=")))) None.

(** A session of a command on the test service: the store [st], the
    mailbox [mailbox] and the scripted answers. *)
Definition session_of (st : world) (mailbox : fake_world) (replies : list answer)
  : Main.session fake_world script :=
  Main.mk_session st mailbox (mk_script replies []) [].

(** The command [fetch] on the test service, in UTC. *)
Definition test_fetch_try :=
  Main.fetch_try fake_platform scripted parsedate_to_datetime json_dumps
    json_loads utc_timestamp utc_fromtimestamp_float utc_fromtimestamp_int
    strptime_ymd.


(** The test service when it fails to return the message [m2]. *)
Definition lossy_platform : platform fake_world :=
  {| clock := clock fake_platform;
     console := console fake_platform;
     service := service fake_platform;
     list_messages := list_messages fake_platform;
     get_message := fun i w =>
       if str_eqb i (py "m2") then (Raise HttpError, w) else fake_get i w |}.

(** A working directory with a file next to the marker. *)
Definition world_with_notes : world :=
  mk_world {[ py "notes.txt" := py "keep" ]} noon_2025_10_06 [].

(** An email whose name and address are clean. *)
Definition email_john : Email.t :=
  email_of msg_dated (py "John Doe", py "john@example.com")
    (mk_datetime 2025 9 29 10 0 0 0) (py "hello").

(** The mailbox whose second message has a Date header that is no date. *)
Definition bad_date_mailbox : fake_world :=
  mk_fake noon_2025_10_06 [msg_dated; msg_bad_date] [].

(* ================================================================= *)
(** * Facts about strings *)

Section StringFacts.

Implicit Types (c : N) (s pre rest : str).

Lemma contains_true c s : contains c s = true <-> c ∈ s.
Proof.
  unfold contains. rewrite existsb_exists. split.
  - intros (x & Hin & Hx). apply N.eqb_eq in Hx. subst.
    by apply list_elem_of_In.
  - intros Hin. exists c. split; [by apply list_elem_of_In | apply N.eqb_refl].
Qed.

Lemma contains_false c s : contains c s = false <-> c ∉ s.
Proof.
  rewrite <- contains_true. destruct (contains c s); split; intros H;
    try done; exfalso; by apply H.
Qed.

Lemma split_nonempty c s : exists h t, split c s = h :: t.
Proof.
  induction s as [|x s IH]; simpl; [by eexists _, _|].
  destruct (N.eqb x c); [by eexists _, _|].
  destruct IH as (h & t & ->). by eexists _, _.
Qed.

(** A prefix free of the separator stays in front of the first piece. *)
Lemma split_prefix c pre rest h t :
  c ∉ pre -> split c rest = h :: t -> split c (pre ++ rest) = (pre ++ h) :: t.
Proof.
  intros Hpre Hrest. induction pre as [|x pre IH]; simpl; [done|].
  apply not_elem_of_cons in Hpre as [Hx Hpre].
  destruct (N.eqb_spec x c) as [->|_]; [done|].
  by rewrite (IH Hpre).
Qed.

Lemma split_at_first c pre rest :
  c ∉ pre -> split c (pre ++ c :: rest) = pre :: split c rest.
Proof.
  intros Hpre.
  rewrite (split_prefix c pre (c :: rest) [] (split c rest) Hpre).
  - by rewrite app_nil_r.
  - simpl. by rewrite N.eqb_refl.
Qed.

Lemma split_absent c s : c ∉ s -> split c s = [s].
Proof.
  intros Hs. rewrite <- (app_nil_r s) at 1.
  rewrite (split_prefix c s [] [] [] Hs); [by rewrite app_nil_r | done].
Qed.

End StringFacts.

(* ================================================================= *)
(** * [parse_email_address] *)

Lemma after_first_keeps c pre rest x :
  x ∈ rest -> x ∈ after_first c (pre ++ c :: rest).
Proof.
  intros Hx. induction pre as [|y pre IH]; simpl.
  - by rewrite N.eqb_refl.
  - destruct (N.eqb y c); [|done].
    apply elem_of_app. right. by apply elem_of_cons; right.
Qed.

Lemma angle_bracketed_after_first header :
  angle_bracketed header -> GT ∈ after_first LT header.
Proof.
  intros (pre & addr & post & ->). apply after_first_keeps.
  apply elem_of_app. right. apply elem_of_cons. by left.
Qed.

Lemma parse_email_address_total header :
  exists name email, parse_email_address header = Ok (name, email).
Proof.
  unfold parse_email_address.
  destruct (contains LT header && contains GT header) eqn:Hc;
    [|by eexists _, _].
  apply andb_true_iff in Hc as [Hlt _]. apply contains_true in Hlt.
  apply list_elem_of_split in Hlt as (l1 & l2 & ->).
  assert (exists pre rest, l1 ++ LT :: l2 = pre ++ LT :: rest /\ LT ∉ pre)
    as (pre & rest & -> & Hpre).
  { clear. induction l1 as [|x l1 IH].
    - exists [], l2. split; [done | apply not_elem_of_nil].
    - destruct (decide (x = LT)) as [->|Hx].
      + exists [], (l1 ++ LT :: l2). split; [done | apply not_elem_of_nil].
      + destruct IH as (pre & rest & Heq & Hpre).
        exists (x :: pre), rest. split; [simpl; by rewrite Heq|].
        by apply not_elem_of_cons. }
  rewrite (split_at_first LT pre rest Hpre).
  destruct (split_nonempty LT rest) as (h & t & ->).
  destruct (split_nonempty GT h) as (h' & t' & Hh).
  cbn. rewrite Hh. cbn. by eexists _, _.
Qed.

(** C9 (as amended).  When the first [<] of the header is followed by a
    [>] with no other [<] in between, the parser returns the text before
    that [<], stripped of white space and then of double quotes, paired
    with the text between the brackets, stripped of white space.  When the
    header has no [<] or no [>], it returns the whole value, stripped of
    white space, as both name and address.  The two examples of the
    specification hold. *)
Theorem parse_email_address_spec :
  (forall pre addr post : str,
      LT ∉ pre -> LT ∉ addr -> GT ∉ addr ->
      parse_email_address (pre ++ [LT] ++ addr ++ [GT] ++ post)
      = Ok (strip_chars [QUOTE] (strip pre), strip addr))
  /\ (forall header : str,
        LT ∉ header \/ GT ∉ header ->
        parse_email_address header = Ok (strip header, strip header))
  /\ parse_email_address (py "John Doe <john@example.com>")
     = Ok (py "John Doe", py "john@example.com")
  /\ parse_email_address (py "jane@example.com")
     = Ok (py "jane@example.com", py "jane@example.com").
Proof.
  split; [|split; [|split; reflexivity]].
  - intros pre addr post Hpre Haddr Hgt.
    unfold parse_email_address.
    assert (contains LT (pre ++ [LT] ++ addr ++ [GT] ++ post) = true) as ->.
    { apply contains_true. set_solver. }
    assert (contains GT (pre ++ [LT] ++ addr ++ [GT] ++ post) = true) as ->.
    { apply contains_true. set_solver. }
    cbn [andb app].
    rewrite (split_at_first LT pre _ Hpre).
    destruct (split_nonempty LT (GT :: post)) as (h & t & Hsplit).
    assert (exists h', h = GT :: h') as (h' & ->).
    { simpl in Hsplit. change (N.eqb GT LT) with false in Hsplit.
      destruct (split LT post) as [|h0 t0]; inversion Hsplit; by eexists. }
    rewrite (split_prefix LT addr (GT :: post) _ _ Haddr Hsplit).
    cbn. rewrite (split_at_first GT addr h' Hgt). reflexivity.
  - intros header Hno. unfold parse_email_address.
    assert (contains LT header && contains GT header = false) as ->; [|done].
    apply andb_false_iff.
    destruct Hno as [H|H]; [left | right]; by apply contains_false.
Qed.

(** The first part of [parse_email_address_spec] at a quoted display name
    with white space around the name and inside the brackets. *)
Lemma parse_email_address_spec_witness :
  parse_email_address
    ((SPACE :: QUOTE :: py "Doe, Jane" ++ [QUOTE; SPACE])
       ++ [LT] ++ py " jane@example.com " ++ [GT] ++ py " (work)")
  = Ok (strip_chars [QUOTE] (strip (SPACE :: QUOTE :: py "Doe, Jane" ++ [QUOTE; SPACE])),
        strip (py " jane@example.com "))
  /\ strip_chars [QUOTE] (strip (SPACE :: QUOTE :: py "Doe, Jane" ++ [QUOTE; SPACE]))
     = py "Doe, Jane"
  /\ strip (py " jane@example.com ") = py "jane@example.com".
Proof.
  split; [|split; reflexivity].
  apply (proj1 parse_email_address_spec);
    apply (bool_decide_unpack _); vm_compute; reflexivity.
Defined.

(** C9, counterexample.  The header [a>b<c] holds no address between angle
    brackets (its only [>] comes before its only [<]), and yet it is split
    at the [<]: the whole value is not returned as name and address. *)
Lemma parse_email_address_reversed_brackets :
  ~ angle_bracketed (py "a>b<c")
  /\ parse_email_address (py "a>b<c") = Ok (py "a>b", py "c")
  /\ parse_email_address (py "a>b<c")
     <> Ok (strip (py "a>b<c"), strip (py "a>b<c")).
Proof.
  split; [|split].
  - intros H. apply angle_bracketed_after_first in H.
    revert H. apply (bool_decide_unpack _). vm_compute. reflexivity.
  - reflexivity.
  - vm_compute. discriminate.
Qed.

(* ================================================================= *)
(** * Running programs *)

Section RunFacts.

Context {W : Type} (pf : platform W).

Lemma run_bind {A B} (p : prog A) (f : A -> prog B) (w : W) :
  run pf (p ≫= f) w
  = let '(r, w', tr) := run pf p w in
    match r with
    | Ok a => let '(r2, w2, tr2) := run pf (f a) w' in (r2, w2, tr ++ tr2)
    | Raise e => (Raise e, w', tr)
    end.
Proof.
  unfold mbind, prog_bind. revert w.
  induction p as [a|e|X c k IH]; intros w; simpl.
  - by destruct (run pf (f a) w) as [[r2 w2] tr2].
  - done.
  - destruct (handle pf c w) as [[x|e] w']; [|done].
    rewrite IH. destruct (run pf (k x) w') as [[[a|e] w''] tr]; [|done].
    by destruct (run pf (f a) w'') as [[r2 w2] tr2].
Qed.

Lemma run_perform {X} (c : call X) (w : W) :
  run pf (perform c) w
  = let '(r, w') := handle pf c w in (r, w', [event_of c r]).
Proof.
  unfold perform. simpl. by destruct (handle pf c w) as [[x|e] w'].
Qed.

Lemma run_lift {A} (r : result A) (w : W) : run pf (lift r) w = (r, w, []).
Proof. by destruct r. Qed.

Lemma run_ret {A} (a : A) (w : W) : run pf (mret a) w = (Ok a, w, []).
Proof. done. Qed.

End RunFacts.

(* ================================================================= *)
(** * [build_query] *)

Section BuildQuery.

Context {W : Type} (pf : platform W).

(** With a truthy day-count the clock is read once and the only date term
    is the lower bound [now - days]. *)
Lemma build_query_days (w : W) after before (days : Z) unread_only labels :
  days <> 0 ->
  run pf (build_query after before (Some days) unread_only labels) w
  = (target_date ← sub_days (clock pf w).1 days;
     Ok (join (py " ")
           (unread_terms unread_only
              ++ [date_term (py "after:") target_date]
              ++ label_terms labels)),
     (clock pf w).2, [EvNow (Ok (clock pf w).1)]).
Proof.
  intros Hd. unfold build_query.
  assert (truthy_int (Some days) = true) as ->.
  { simpl. by destruct (Z.eqb_spec days 0). }
  rewrite !run_bind, run_perform. simpl.
  destruct (clock pf w) as [now w'] eqn:Hclock. simpl.
  rewrite run_bind, run_lift.
  destruct (sub_days now days) as [t|e]; [|done].
  rewrite run_ret. simpl.
  unfold unread_terms, label_terms.
  destruct unread_only, labels; simpl; by rewrite ?app_nil_r.
Qed.

(** Without a truthy day-count the clock is not read, and the date terms
    are those of [after] and [before]. *)
Lemma build_query_range (w : W) after before days unread_only labels :
  truthy_int days = false ->
  run pf (build_query after before days unread_only labels) w
  = (Ok (join (py " ")
           (unread_terms unread_only
              ++ range_terms after before
              ++ label_terms labels)),
     w, []).
Proof.
  intros Hd. unfold build_query. rewrite Hd.
  rewrite run_bind, run_ret. simpl.
  unfold unread_terms, range_terms, label_terms.
  destruct unread_only, after, before, labels; simpl; by rewrite ?app_nil_r.
Qed.

(** C3 (as amended).  For every non-zero day-count, whatever [after] and
    [before] are: when [now - days] is a date, the query is the unread term
    (if asked for), then one date term, the lower bound [now - days], then
    the label terms; when the subtraction overflows, [build_query] raises
    [OverflowError].  A day-count of zero is treated as no day-count: the
    date terms are then those of [after] and [before]. *)
Theorem build_query_days_override
    (w : W) after before (days : Z) unread_only labels :
  days <> 0 ->
  (forall target_date,
      sub_days (clock pf w).1 days = Ok target_date ->
      outcome (run pf (build_query after before (Some days) unread_only labels) w)
      = Ok (join (py " ")
              (unread_terms unread_only
                 ++ [date_term (py "after:") target_date]
                 ++ label_terms labels)))
  /\ (forall e,
        sub_days (clock pf w).1 days = Raise e ->
        outcome (run pf (build_query after before (Some days) unread_only labels) w)
        = Raise e)
  /\ outcome (run pf (build_query after before (Some 0) unread_only labels) w)
     = Ok (join (py " ")
             (unread_terms unread_only
                ++ range_terms after before
                ++ label_terms labels)).
Proof.
  intros Hd. split; [|split].
  - intros t Ht. rewrite (build_query_days w _ _ _ _ _ Hd), Ht. reflexivity.
  - intros e He. rewrite (build_query_days w _ _ _ _ _ Hd), He. reflexivity.
  - by rewrite build_query_range.
Qed.

End BuildQuery.

(** [build_query_days_override] for seven days, with bounds that are
    ignored. *)
Lemma build_query_days_override_witness :
  outcome (run fake_platform
             (build_query (Some new_year_2025) (Some new_year_2025) (Some 7)
                true (Some [py "INBOX"]))
             empty_mailbox)
  = Ok (py "is:unread after:2025/09/29 label:INBOX").
Proof.
  refine (proj1 (build_query_days_override fake_platform empty_mailbox
                   (Some new_year_2025) (Some new_year_2025) 7 true
                   (Some [py "INBOX"]) _)
            (mk_datetime 2025 9 29 12 0 0 0) _).
  - discriminate.
  - reflexivity.
Defined.

(** C3, counterexample.  With a day-count of zero and a lower bound of
    1 January 2025, on 6 October 2025, the query carries the bound of
    [after] and not [now - 0]; and a day-count of one million, which
    reaches before year 1, yields no query at all. *)
Lemma build_query_days_zero_or_huge :
  sub_days noon_2025_10_06 0 = Ok noon_2025_10_06
  /\ outcome (run fake_platform
                (build_query (Some new_year_2025) None (Some 0) true None)
                empty_mailbox)
     = Ok (py "is:unread after:2025/01/01")
  /\ py "is:unread after:2025/01/01"
     <> join (py " ")
          (unread_terms true
             ++ [date_term (py "after:") noon_2025_10_06]
             ++ label_terms None)
  /\ outcome (run fake_platform
                (build_query None None (Some 1000000) true None)
                empty_mailbox)
     = Raise OverflowError.
Proof.
  repeat split; try reflexivity. vm_compute. discriminate.
Qed.

(* ================================================================= *)
(** * [get_email_body] *)

Section BodyFacts.

Lemma get_email_body_unfold p :
  get_email_body p
  = if has_data p then d ← body_data p; decode_data d
    else match p_parts p with
         | Some parts => walk get_email_body parts []
         | None => Ok []
         end.
Proof. by destruct p as [mt hs b [parts|]]. Qed.

Lemma has_data_body_data part :
  has_data part = true -> exists d, body_data part = Ok d /\ d ∈ data_of part.
Proof.
  destruct part as [mt hs [[[d|]]|] ps]; try done.
  intros _. exists d. split; [done|]. simpl. set_solver.
Qed.


Lemma str_eqb_refl (s : str) : str_eqb s s = true.
Proof. by apply bool_decide_eq_true. Qed.

(** The loop on its first child, case by case. *)
Lemma walk_plain recurse part rest body d :
  plain_with_data part = true -> body_data part = Ok d ->
  walk recurse (part :: rest) body = decode_data d.
Proof.
  unfold plain_with_data, TEXT_PLAIN. intros Hp Hd.
  simpl. by rewrite Hp, Hd.
Qed.

Lemma walk_step recurse part rest body :
  plain_with_data part = false ->
  walk recurse (part :: rest) body
  = (body' ← html_step part body;
     if has_parts part then
       nested_body ← recurse part;
       if truthy_str nested_body then Ok nested_body
       else walk recurse rest body'
     else walk recurse rest body').
Proof.
  unfold plain_with_data, TEXT_PLAIN. intros Hp.
  simpl. by rewrite Hp.
Qed.

Lemma walk_pass part rest body :
  passes part ->
  walk get_email_body (part :: rest) body
  = walk get_email_body rest (fallback [part] body).
Proof.
  intros (Hplain & Hhtml & Hrec). rewrite (walk_step _ _ _ _ Hplain).
  destruct (Hhtml body) as (body' & Hb). simpl. rewrite Hb. simpl.
  destruct (has_parts part); [|done].
  by rewrite (Hrec eq_refl).
Qed.

(** The children that the loop passes only move the fallback. *)
Lemma walk_passes pre rest body :
  Forall passes pre ->
  walk get_email_body (pre ++ rest) body
  = walk get_email_body rest (fallback pre body).
Proof.
  intros Hpre. revert body.
  induction Hpre as [|p pre Hp _ IH]; intros body; [done|].
  change ((p :: pre) ++ rest) with (p :: (pre ++ rest)).
  rewrite (walk_pass _ _ _ Hp), IH. reflexivity.
Qed.

End BodyFacts.

Section BodyPolicy.

Implicit Types (mt : option str) (hs : list header) (b : option part_body).







End BodyPolicy.


(** C5.  The walk over the children of a multipart node, in list order.
    After children that the loop passes ([pre]):
    - a plain-text child with data returns its decoded data at once;
    - a child with parts whose recursion yields a non-empty string returns
      that string at once, whatever the HTML fallback remembered so far
      and whatever siblings remain;
    and when the loop passes every child, the HTML fallback (possibly the
    empty string) is returned. *)
Theorem walk_in_list_order :
  (forall pre part rest body d,
      Forall passes pre ->
      plain_with_data part = true -> body_data part = Ok d ->
      walk get_email_body (pre ++ part :: rest) body = decode_data d)
  /\ (forall pre part rest body body' nested,
        Forall passes pre ->
        plain_with_data part = false ->
        html_step part (fallback pre body) = Ok body' ->
        has_parts part = true ->
        get_email_body part = Ok nested -> nested <> [] ->
        walk get_email_body (pre ++ part :: rest) body = Ok nested)
  /\ (forall parts body,
        Forall passes parts ->
        walk get_email_body parts body = Ok (fallback parts body)).
Proof.
  split; [|split].
  - intros pre part rest body d Hpre Hplain Hd.
    rewrite (walk_passes _ _ _ Hpre). by apply walk_plain.
  - intros pre part rest body body' nested Hpre Hplain Hhtml Hparts Hrec Hne.
    rewrite (walk_passes _ _ _ Hpre), (walk_step _ _ _ _ Hplain), Hhtml, Hparts.
    cbn [mbind result_bind]. rewrite Hrec. cbn [mbind result_bind].
    by destruct nested.
  - intros parts body Hparts.
    rewrite <- (app_nil_r parts) at 1. by rewrite (walk_passes _ _ _ Hparts).
Qed.

(** [walk_in_list_order], second part: an HTML leaf ([<b>hi</b>]), then a
    nested multipart node holding a plain leaf ([hello]), then a plain
    leaf that is never reached. *)
Lemma walk_in_list_order_witness :
  walk get_email_body
    ([leaf TEXT_HTML [] html_hi]
       ++ Payload (Some (py "multipart/alternative")) [] None
            (Some [leaf TEXT_PLAIN [] plain_hello])
       :: [leaf TEXT_PLAIN [] html_hi])
    []
  = Ok (py "hello").
Proof.
  refine (proj1 (proj2 walk_in_list_order) _ _ _ _ (py "<b>hi</b>") _ _ _ _ _ _ _).
  - constructor; [|constructor].
    split; [reflexivity|]. split; [|discriminate].
    intros body. by exists (py "<b>hi</b>").
  - reflexivity.
  - reflexivity.
  - reflexivity.
  - reflexivity.
  - discriminate.
Defined.

Section BodyTotal.









End BodyTotal.



(* ================================================================= *)
(** * [fetch_emails] *)

Section FetchFacts.

Context {W : Type} (pf : platform W).
Variable parse : str -> result datetime.

Lemma run_fetch_detail (ref : msg_ref) (w : W) :
  run pf (fetch_detail parse ref) w
  = let '(r, w1) := get_message pf (ref_id ref) w in
    match r with
    | Raise e => (Raise e, w1, [EvGet (ref_id ref) (Raise e)])
    | Ok msg =>
        match parse_email_address (header_of msg (py "From")) with
        | Raise e => (Raise e, w1, [EvGet (ref_id ref) (Ok msg)])
        | Ok sender =>
            if truthy_str (header_of msg (py "Date")) then
              (date ← parse (header_of msg (py "Date"));
               body ← get_email_body (msg_payload msg);
               Ok (email_of msg sender date body),
               w1, [EvGet (ref_id ref) (Ok msg)])
            else
              let '(now, w2) := clock pf w1 in
              (body ← get_email_body (msg_payload msg);
               Ok (email_of msg sender now body),
               w2, [EvGet (ref_id ref) (Ok msg); EvNow (Ok now)])
        end
    end.
Proof.
  unfold fetch_detail. rewrite run_bind, run_perform.
  cbn [handle]. destruct (get_message pf (ref_id ref) w) as [[msg|e] w1];
    [|done].
  fold (header_of msg (py "From")) (header_of msg (py "Date"))
       (header_of msg (py "Subject")) (header_of msg (py "To")).
  rewrite run_bind, run_lift.
  destruct (parse_email_address (header_of msg (py "From"))) as [sender|e];
    [|done].
  rewrite run_bind.
  destruct (truthy_str (header_of msg (py "Date"))).
  - rewrite run_lift.
    destruct (parse (header_of msg (py "Date"))) as [date|e]; [|done].
    rewrite run_bind, run_lift.
    by destruct (get_email_body (msg_payload msg)) as [body|e].
  - rewrite run_perform. cbn [handle].
    destruct (clock pf w1) as [now w2].
    rewrite run_bind, run_lift.
    by destruct (get_email_body (msg_payload msg)) as [body|e].
Qed.

End FetchFacts.

Section FetchLoop.

Context {W : Type} (pf : platform W).
Variable parse : str -> result datetime.

Lemma run_fetch_details_cons ref refs acc (w : W) :
  run pf (fetch_details parse (ref :: refs) acc) w
  = let '(r, w1, tr) := run pf (fetch_detail parse ref) w in
    match r with
    | Ok email =>
        let '(r2, w2, tr2) := run pf (fetch_details parse refs (acc ++ [email])) w1 in
        (r2, w2, tr ++ tr2)
    | Raise e => (Raise e, w1, tr)
    end.
Proof. cbn [fetch_details]. by rewrite run_bind. Qed.

(** One turn of the loop on [ref] from the world [w], case by case: the
    message is fetched or not, its Date header is present or not and
    parses or not, its body decodes or not. *)
Ltac loop_turn ref w :=
  rewrite run_fetch_details_cons, run_fetch_detail;
  destruct (get_message pf (ref_id ref) w) as [[fetched|get_error] w_got];
  [ destruct (parse_email_address_total (header_of fetched (py "From")))
      as (sender_name & sender_email & Hsender);
    rewrite Hsender;
    destruct (truthy_str (header_of fetched (py "Date"))) eqn:Hdate;
    [ destruct (parse (header_of fetched (py "Date")))
        as [parsed|date_error] eqn:Hparse;
      [ destruct (get_email_body (msg_payload fetched))
          as [decoded|body_error] eqn:Hbody | ]
    | destruct (clock pf w_got) as [read w_read];
      destruct (get_email_body (msg_payload fetched))
        as [decoded|body_error] eqn:Hbody ]
  | ];
  cbn [mbind result_bind].

(** The loop never calls [messages().list]. *)
Lemma fetch_details_no_list refs : forall acc (w : W),
  list_events (trace (run pf (fetch_details parse refs acc) w)) = [].
Proof.
  induction refs as [|ref refs IH]; intros acc w; [done|].
  loop_turn ref w; try done.
  - specialize (IH (acc ++ [email_of fetched (sender_name, sender_email) parsed decoded]) w_got).
    by destruct (run pf (fetch_details parse refs _) w_got) as [[r2 w2] tr2].
  - specialize (IH (acc ++ [email_of fetched (sender_name, sender_email) read decoded]) w_read).
    by destruct (run pf (fetch_details parse refs _) w_read) as [[r2 w2] tr2].
Qed.

(** When the loop returns, it has fetched the references in order, one
    message each, and appended their normalized forms in that order. *)
Lemma fetch_details_ok refs : forall acc (w : W) emails,
  outcome (run pf (fetch_details parse refs acc) w) = Ok emails ->
  exists msgs es,
    emails = acc ++ es
    /\ get_events (trace (run pf (fetch_details parse refs acc) w))
       = zip (map ref_id refs) (map Ok msgs)
    /\ length msgs = length refs
    /\ Forall2 normalized msgs es.
Proof.
  induction refs as [|ref refs IH]; intros acc w emails.
  { intros [= <-]. exists [], []. by rewrite app_nil_r. }
  loop_turn ref w; try done.
  - specialize (IH (acc ++ [email_of fetched (sender_name, sender_email) parsed decoded]) w_got emails).
    destruct (run pf (fetch_details parse refs _) w_got) as [[r2 w2] tr2].
    intros Hout. destruct (IH Hout) as (msgs & es & -> & Hg & Hlen & Hn).
    exists (fetched :: msgs), (email_of fetched (sender_name, sender_email) parsed decoded :: es).
    repeat split.
    + by rewrite <- app_assoc.
    + unfold trace, get_events in *. cbn in *. by rewrite Hg.
    + simpl. by rewrite Hlen.
    + constructor; [|done]. by eexists _, _, _.
  - specialize (IH (acc ++ [email_of fetched (sender_name, sender_email) read decoded]) w_read emails).
    destruct (run pf (fetch_details parse refs _) w_read) as [[r2 w2] tr2].
    intros Hout. destruct (IH Hout) as (msgs & es & -> & Hg & Hlen & Hn).
    exists (fetched :: msgs), (email_of fetched (sender_name, sender_email) read decoded :: es).
    repeat split.
    + by rewrite <- app_assoc.
    + unfold trace, get_events in *. cbn in *. by rewrite Hg.
    + simpl. by rewrite Hlen.
    + constructor; [|done]. by eexists _, _, _.
Qed.


End FetchLoop.

Section FetchOrchestrator.

Context {W : Type} (pf : platform W).
Variable parse : str -> result datetime.

(** Building the query calls neither operation of the service. *)
Lemma build_query_calls (w : W) after before days unread_only labels :
  list_events (trace (run pf (build_query after before days unread_only labels) w)) = []
  /\ get_events (trace (run pf (build_query after before days unread_only labels) w)) = [].
Proof.
  destruct (truthy_int days) eqn:Hd.
  - destruct days as [d|]; [|done].
    rewrite build_query_days; [done|].
    simpl in Hd. by destruct (Z.eqb_spec d 0).
  - by rewrite build_query_range.
Qed.

(** [fetch_emails], step by step. *)
Lemma run_fetch_emails (w : W) after before days unread_only labels max_results :
  run pf (fetch_emails parse after before days unread_only labels max_results) w
  = let '(r0, w1) := service pf w in
    match r0 with
    | Raise e => (Raise e, w1, [EvService (Raise e)])
    | Ok u =>
        let '(rq, w2, trq) :=
          run pf (build_query after before days unread_only labels) w1 in
        match rq with
        | Raise e => (Raise e, w2, EvService (Ok u) :: trq)
        | Ok q =>
            let line := py "Gmail query: " ++ q in
            let '(rl, w3) := list_messages pf q max_results (console pf line w2) in
            match rl with
            | Raise e =>
                (Raise e, w3,
                 EvService (Ok u) :: trq
                   ++ [EvPrint line; EvList q max_results (Raise e)])
            | Ok results =>
                match default [] (messages results) with
                | [] =>
                    (Ok [], console pf NO_MESSAGES w3,
                     EvService (Ok u) :: trq
                       ++ [EvPrint line; EvList q max_results (Ok results);
                           EvPrint NO_MESSAGES])
                | ref :: refs =>
                    let '(r, w4, tr) :=
                      run pf (fetch_details parse (ref :: refs) [])
                        (console pf (found_line (ref :: refs)) w3) in
                    (r, w4,
                     EvService (Ok u) :: trq
                       ++ [EvPrint line; EvList q max_results (Ok results);
                           EvPrint (found_line (ref :: refs))]
                       ++ tr)
                end
            end
        end
    end.
Proof.
  unfold fetch_emails. rewrite run_bind, run_perform. cbn [handle].
  destruct (service pf w) as [[u|e] w1]; [|done].
  rewrite run_bind.
  destruct (run pf (build_query after before days unread_only labels) w1)
    as [[[q|e] w2] trq]; [|done].
  rewrite run_bind, run_perform. cbn [handle].
  rewrite run_bind, run_perform. cbn [handle].
  destruct (list_messages pf q max_results (console pf (py "Gmail query: " ++ q) w2))
    as [[results|e] w3]; [|done].
  destruct (default [] (messages results)) as [|ref refs] eqn:Hrefs.
  - rewrite run_bind, run_perform. cbn [handle]. rewrite run_ret.
    reflexivity.
  - rewrite run_bind, run_perform. cbn [handle].
    fold (found_line (ref :: refs)).
    destruct (run pf (fetch_details parse (ref :: refs) [])
                (console pf (found_line (ref :: refs)) w3)) as [[r w4] tr].
    reflexivity.
Qed.

(** C6.  Whatever the service answers: when [fetch_emails] returns, it has
    called [messages().list] once, then [messages().get] once for each id
    reference of the response, in the order of the response, and the
    emails it returns are the normalized forms of the messages fetched,
    one per reference and in that order.  When the response of
    [messages().list] holds no reference, it returns the empty list and
    [messages().get] is never called. *)
Theorem fetch_emails_order (w : W) after before days unread_only labels max_results :
  let x := run pf (fetch_emails parse after before days unread_only labels
                     max_results) w in
  (forall emails,
      outcome x = Ok emails ->
      exists q results msgs,
        list_events (trace x) = [(q, max_results, Ok results)]
        /\ get_events (trace x)
           = zip (map ref_id (default [] (messages results))) (map Ok msgs)
        /\ length msgs = length (default [] (messages results))
        /\ Forall2 normalized msgs emails)
  /\ (forall q n results,
        (q, n, Ok results) ∈ list_events (trace x) ->
        default [] (messages results) = [] ->
        outcome x = Ok [] /\ get_events (trace x) = []).
Proof.
  intros x. subst x. rewrite run_fetch_emails.
  destruct (service pf w) as [[u|e] w1].
  2:{ split; [done|]. intros q n results Hin. by apply elem_of_nil in Hin. }
  pose proof (build_query_calls w1 after before days unread_only labels)
    as [Hql Hqg].
  destruct (run pf (build_query after before days unread_only labels) w1)
    as [[[q|e] w2] trq].
  2:{ split; [done|]. intros q n results Hin.
      unfold trace, list_events in *. cbn in *. rewrite Hql in Hin.
      by apply elem_of_nil in Hin. }
  cbn zeta.
  destruct (list_messages pf q max_results (console pf (py "Gmail query: " ++ q) w2))
    as [[results|e] w3].
  2:{ split; [done|]. intros q' n results Hin.
      unfold trace, list_events in *. cbn in *.
      rewrite omap_app, Hql in Hin. cbn in Hin.
      by apply list_elem_of_singleton in Hin. }
  destruct (default [] (messages results)) as [|ref refs] eqn:Hrefs.
  - unfold trace, outcome, list_events, get_events in *. cbn in *.
    rewrite !omap_app, Hql, Hqg. cbn. split.
    + intros emails [= <-]. exists q, results, []. by rewrite Hrefs.
    + done.
  - pose proof (fetch_details_ok pf parse (ref :: refs) []
                  (console pf (found_line (ref :: refs)) w3)) as Hok.
    pose proof (fetch_details_no_list pf parse (ref :: refs) []
                  (console pf (found_line (ref :: refs)) w3)) as Hnl.
    destruct (run pf (fetch_details parse (ref :: refs) [])
                (console pf (found_line (ref :: refs)) w3)) as [[r w4] tr].
    unfold trace, outcome, list_events, get_events in *. cbn in *.
    rewrite !omap_app, Hql, Hqg. cbn. rewrite Hnl. split.
    + intros emails ->. destruct (Hok emails eq_refl)
        as (msgs & es & -> & Hg & Hlen & Hn).
      exists q, results, msgs. by rewrite Hrefs.
    + intros q' n results' Hin Hnone.
      apply list_elem_of_singleton in Hin as [= _ _ <-]. congruence.
Qed.


End FetchOrchestrator.

(** [fetch_emails_order] on the test service with two messages. *)
Lemma fetch_emails_order_witness :
  exists q results msgs,
    list_events
      (trace (run fake_platform
                (fetch_emails parsedate_to_datetime None None (Some 7) true
                   None 100) two_messages))
    = [(q, 100, Ok results)]
    /\ get_events
         (trace (run fake_platform
                   (fetch_emails parsedate_to_datetime None None (Some 7) true
                      None 100) two_messages))
       = zip (map ref_id (default [] (messages results))) (map Ok msgs)
    /\ length msgs = length (default [] (messages results))
    /\ Forall2 normalized msgs
         [email_of msg_dated (py "John Doe", py "john@example.com")
            (mk_datetime 2025 9 29 10 0 0 0) (py "hello");
          email_of msg_undated (py "jane@example.com", py "jane@example.com")
            (mk_datetime 2025 10 6 12 0 1 0) (py "hello")].
Proof.
  apply (proj1 (fetch_emails_order fake_platform parsedate_to_datetime
                  two_messages None None (Some 7) true None 100)).
  reflexivity.
Defined.



(** C1, at the failing input.  Called on 6 October 2025 with a lower bound
    of 1 January 2025 and no day-count, [fetch_emails] passes to
    [messages().list] a query whose date term is seven days back: the
    default of [days] is 7, and [build_query] lets a day-count override
    [after].  The term of the supplied bound is not in the query. *)
Theorem fetch_emails_after_only_uses_default_days :
  list_events
    (trace (run fake_platform
              (call_fetch_emails parsedate_to_datetime after_only)
              two_messages))
  = [(py "is:unread after:2025/09/29", 100,
      Ok (mk_list_response
            (Some [mk_ref (py "m1") (py "t1"); mk_ref (py "m2") (py "t2")])))]
  /\ date_term (py "after:") new_year_2025 = py "after:2025/01/01"
  /\ is_substring (date_term (py "after:") new_year_2025)
       (py "is:unread after:2025/09/29") = false.
Proof. repeat split. Qed.

Section FetchQuery.

Context {W : Type} (pf : platform W).
Variable parse : str -> result datetime.

(** A call that leaves [days] out is the call with [days=7]. *)
Lemma call_fetch_emails_default_days kw :
  kw_days kw = None ->
  call_fetch_emails parse kw
  = fetch_emails parse (default None (kw_after kw)) (default None (kw_before kw))
      (Some 7) (default true (kw_unread_only kw)) (default None (kw_labels kw))
      (default 100 (kw_max_results kw)).
Proof. unfold call_fetch_emails. by intros ->. Qed.

(** The query that [fetch_emails] passes to [messages().list] is the one
    that [build_query] returns for the same options. *)
Lemma fetch_emails_query (w : W) after before days unread_only labels max_results q n r :
  (q, n, r) ∈ list_events
                (trace (run pf (fetch_emails parse after before days unread_only
                                  labels max_results) w)) ->
  n = max_results
  /\ exists w1, outcome (run pf (build_query after before days unread_only labels) w1)
                = Ok q.
Proof.
  rewrite run_fetch_emails.
  destruct (service pf w) as [[u|e] w1].
  2:{ intros Hin. by apply elem_of_nil in Hin. }
  pose proof (build_query_calls pf w1 after before days unread_only labels)
    as [Hql Hqg].
  destruct (run pf (build_query after before days unread_only labels) w1)
    as [[[q'|e] w2] trq] eqn:Hrun.
  2:{ unfold trace, list_events in *. cbn in *. rewrite Hql.
      intros Hin. by apply elem_of_nil in Hin. }
  assert (forall tail : list event,
             list_events tail = [] ->
             forall rl,
             (q, n, r) ∈ list_events
                 (EvService (Ok u) :: trq
                    ++ [EvPrint (py "Gmail query: " ++ q');
                        EvList q' max_results rl] ++ tail) ->
             n = max_results
             /\ exists w1, outcome (run pf (build_query after before days
                                              unread_only labels) w1) = Ok q)
    as Hone.
  { intros tail Htail rl. unfold trace, list_events in *. cbn in Hql |- *.
    rewrite !omap_app, Hql. cbn. rewrite Htail. intros Hin.
    apply list_elem_of_singleton in Hin as [= -> -> ->].
    split; [done|]. exists w1. by rewrite Hrun. }
  cbn zeta.
  destruct (list_messages pf q' max_results (console pf (py "Gmail query: " ++ q') w2))
    as [[results|e] w3].
  2:{ apply (Hone [] eq_refl). }
  destruct (default [] (messages results)) as [|ref refs].
  { apply (Hone [EvPrint NO_MESSAGES] eq_refl). }
  pose proof (fetch_details_no_list pf parse (ref :: refs) []
                (console pf (found_line (ref :: refs)) w3)) as Hnl.
  destruct (run pf (fetch_details parse (ref :: refs) [])
              (console pf (found_line (ref :: refs)) w3)) as [[r' w4] tr].
  apply (Hone (EvPrint (found_line (ref :: refs)) :: tr)). exact Hnl.
Qed.

(** With [days=None] (or zero) passed explicitly, the query holds the term
    of the bound [after]. *)
Lemma fetch_emails_query_after (w : W) a before days unread_only labels max_results q n r :
  truthy_int days = false ->
  (q, n, r) ∈ list_events
                (trace (run pf (fetch_emails parse (Some a) before days
                                  unread_only labels max_results) w)) ->
  q = join (py " ")
        (unread_terms unread_only
           ++ range_terms (Some a) before ++ label_terms labels).
Proof.
  intros Hd Hin. apply fetch_emails_query in Hin as [_ [w1 Hq]].
  rewrite (build_query_range pf w1 _ _ _ _ _ Hd) in Hq. by injection Hq.
Qed.

(** A call with a lower bound and no [days] argument: every query passed
    to [messages().list] is the seven-day query, whatever the bound. *)
Lemma fetch_emails_after_only_query (w : W) a q n r :
  (q, n, r) ∈ list_events
                (trace (run pf (call_fetch_emails parse
                                  (mk_kwargs (Some (Some a)) None None None
                                     None None)) w)) ->
  exists now target_date,
    sub_days now 7 = Ok target_date
    /\ q = join (py " ") [py "is:unread"; date_term (py "after:") target_date].
Proof.
  rewrite call_fetch_emails_default_days by done. cbn [default kw_after
    kw_before kw_unread_only kw_labels kw_max_results from_option id].
  intros Hin. apply fetch_emails_query in Hin as [_ [w1 Hq]].
  rewrite build_query_days in Hq by done.
  exists (clock pf w1).1. unfold outcome in Hq. cbn in Hq.
  destruct (sub_days (clock pf w1).1 7) as [t|e]; [|done].
  exists t. split; [done|]. by injection Hq.
Qed.

End FetchQuery.

(* ================================================================= *)
(** * The last-run store *)

Section StoreFacts.

Variable json_dumps : json -> str.
Variable json_loads : str -> result json.
Variable dt_timestamp : datetime -> float.
Variable fromtimestamp_float : float -> result datetime.
Variable fromtimestamp_int : Z -> result datetime.

Local Abbreviation get_last_run :=
  (State.get_last_run json_loads fromtimestamp_float fromtimestamp_int).
Local Abbreviation save_last_run := (State.save_last_run json_dumps dt_timestamp).
Local Abbreviation marker := (State.marker dt_timestamp).

Lemma get_last_run_print line w : get_last_run (print line w) = get_last_run w.
Proof. done. Qed.

(** Without the marker file the store is empty. *)
Lemma get_last_run_no_file w :
  files w !! STATE_FILE = None -> get_last_run w = Ok None.
Proof.
  intros Hnone. unfold State.get_last_run, exists_. rewrite Hnone.
  rewrite bool_decide_eq_false_2; [done|]. by intros [x Hx].
Qed.

(** The store on a marker file of content [content]. *)
Lemma get_last_run_file w content :
  files w !! STATE_FILE = Some content ->
  get_last_run w
  = match (data ← json_loads content;
           timestamp ← get data (py "last_run");
           if truthy timestamp
           then dt ← fromtimestamp fromtimestamp_float fromtimestamp_int timestamp;
                Ok (Some dt)
           else Ok None) with
    | Ok v => Ok v
    | Raise e => if caught e then Ok None else Raise e
    end.
Proof.
  intros Hfile. unfold State.get_last_run, exists_, get_last_run_try, read_text.
  rewrite Hfile. rewrite bool_decide_eq_true_2; [|by eexists].
  cbn [negb mbind result_bind].
  by destruct (json_loads content ≫= _) as [[dt|]|e].
Qed.

(** A marker file that is not valid JSON reads as an empty store. *)
Lemma get_last_run_invalid_json w content :
  files w !! STATE_FILE = Some content ->
  json_loads content = Raise JSONDecodeError ->
  get_last_run w = Ok None.
Proof.
  intros Hfile Hbad. by rewrite (get_last_run_file w content Hfile), Hbad.
Qed.

(** A marker file that holds valid JSON other than an object makes the
    read raise [AttributeError]. *)
Lemma get_last_run_not_object w content data :
  files w !! STATE_FILE = Some content ->
  json_loads content = Ok data ->
  (forall items, data <> JDict items) ->
  get_last_run w = Raise AttributeError.
Proof.
  intros Hfile Hok Hno. rewrite (get_last_run_file w content Hfile), Hok.
  destruct data; try done. by destruct (Hno items).
Qed.


End StoreFacts.



(** C8, at two failing inputs.  A marker file that holds the valid JSON
    document [[]] makes [get_last_run] raise [AttributeError], and one
    whose [last_run] is a string makes it raise [TypeError]: the [except]
    clause lists neither.  A file that is not JSON at all reads as an
    empty store. *)
Theorem get_last_run_wrong_shape_raises :
  json_loads (py "[]") = Ok (JList [])
  /\ State.get_last_run json_loads utc_fromtimestamp_float utc_fromtimestamp_int
       (world_with_marker (py "[]"))
     = Raise AttributeError
  /\ json_loads (json_text "{'last_run': 'yesterday'}")
     = Ok (JDict [(py "last_run", JStr (py "yesterday"))])
  /\ State.get_last_run json_loads utc_fromtimestamp_float utc_fromtimestamp_int
       (world_with_marker (json_text "{'last_run': 'yesterday'}"))
     = Raise TypeError
  /\ State.get_last_run json_loads utc_fromtimestamp_float utc_fromtimestamp_int
       (world_with_marker (py "{not json"))
     = Ok None.
Proof. repeat split; vm_compute; reflexivity. Qed.

(* ================================================================= *)
(** * Further properties of the code *)

(** ** Strings *)

Section StripFacts.

Variable p : N -> bool.
Implicit Types (s t : str) (c : N).

Lemma lstrip_by_app s t :
  lstrip_by p (s ++ t)
  = if forallb p s then lstrip_by p t else lstrip_by p s ++ t.
Proof.
  induction s as [|c s IH]; [done|]. simpl.
  destruct (p c); [exact IH | done].
Qed.

Lemma lstrip_by_all s : forallb p s = true -> lstrip_by p s = [].
Proof.
  induction s as [|c s IH]; [done|]. simpl.
  destruct (p c); [exact IH | done].
Qed.

Lemma lstrip_by_elem c s : c ∈ lstrip_by p s -> c ∈ s.
Proof.
  induction s as [|x s IH]; [done|]. simpl.
  destruct (p x); [|done]. intros H. apply elem_of_cons. right. by apply IH.
Qed.

Lemma elem_of_rev c s : c ∈ rev s <-> c ∈ s.
Proof. rewrite !list_elem_of_In. symmetry. apply in_rev. Qed.

Lemma strip_by_elem c s : c ∈ strip_by p s -> c ∈ s.
Proof.
  unfold strip_by, rstrip_by. intros H.
  apply (proj1 (elem_of_rev _ _)) in H. apply lstrip_by_elem in H.
  apply (proj1 (elem_of_rev _ _)) in H. by apply lstrip_by_elem in H.
Qed.

Lemma lstrip_by_starts_kept s : starts_kept p (lstrip_by p s).
Proof.
  induction s as [|c s IH]; [done|]. simpl.
  destruct (p c) eqn:Hc; [exact IH | exact Hc].
Qed.

Lemma lstrip_by_kept s : starts_kept p s -> lstrip_by p s = s.
Proof. destruct s as [|c s]; [done|]. simpl. by intros ->. Qed.

Lemma rstrip_by_starts_kept s :
  starts_kept p s -> starts_kept p (rstrip_by p s).
Proof.
  destruct s as [|c s]; [done|]. simpl. intros Hc.
  unfold rstrip_by. simpl. rewrite lstrip_by_app. simpl. rewrite Hc.
  destruct (forallb p (rev s)); simpl; [done|].
  by rewrite rev_app_distr.
Qed.

Lemma rstrip_by_idem s : rstrip_by p (rstrip_by p s) = rstrip_by p s.
Proof.
  unfold rstrip_by. rewrite rev_involutive.
  by rewrite (lstrip_by_kept _ (lstrip_by_starts_kept _)).
Qed.

(** Stripping twice is stripping once. *)
Lemma strip_by_idem s : strip_by p (strip_by p s) = strip_by p s.
Proof.
  unfold strip_by.
  rewrite (lstrip_by_kept (rstrip_by p (lstrip_by p s))).
  - apply rstrip_by_idem.
  - apply rstrip_by_starts_kept, lstrip_by_starts_kept.
Qed.

(** A stripped character at the end changes nothing. *)
Lemma strip_by_snoc s c : p c = true -> strip_by p (s ++ [c]) = strip_by p s.
Proof.
  intros Hc. unfold strip_by. rewrite lstrip_by_app.
  destruct (forallb p s) eqn:Hall.
  - rewrite (lstrip_by_all s Hall). simpl. by rewrite Hc.
  - unfold rstrip_by. rewrite rev_app_distr. simpl. by rewrite Hc.
Qed.

End StripFacts.

Section SplitFacts.

Implicit Types (s t : str) (c : N).

(** The pieces of a split hold no separator, and nothing that the string
    does not hold. *)
Lemma split_pieces c s :
  Forall (fun piece => (c ∉ piece) /\ forall x, x ∈ piece -> x ∈ s) (split c s).
Proof.
  induction s as [|x s IH]; simpl.
  { constructor; [|constructor]. split; [apply not_elem_of_nil | done]. }
  assert (Forall (fun piece => (c ∉ piece) /\ forall y, y ∈ piece -> y ∈ x :: s)
            (split c s)) as IH'.
  { eapply Forall_impl; [exact IH|]. intros piece [H1 H2]. split; [done|].
    intros y Hy. apply elem_of_cons. right. by apply H2. }
  destruct (N.eqb_spec x c) as [->|Hx].
  - constructor; [|exact IH']. split; [apply not_elem_of_nil|].
    intros y Hy. by apply elem_of_nil in Hy.
  - destruct (split c s) as [|h t].
    + constructor; [|constructor]. split.
      * intros H. apply list_elem_of_singleton in H. congruence.
      * intros y Hy. apply list_elem_of_singleton in Hy as ->. by left.
    + apply Forall_cons in IH' as [[H1 H2] Ht]. constructor; [|exact Ht]. split.
      * intros H. apply elem_of_cons in H as [H|H]; [congruence | done].
      * intros y Hy. apply elem_of_cons in Hy as [->|Hy]; [by left | by apply H2].
Qed.

Lemma join_cons sep (t : str) (rest : list str) :
  rest <> [] -> join sep (t :: rest) = t ++ sep ++ join sep rest.
Proof. by destruct rest. Qed.

(** Splitting undoes joining when no term holds the separator. *)
Lemma split_join c (terms : list str) :
  terms <> [] -> Forall (fun t => c ∉ t) terms ->
  split c (join [c] terms) = terms.
Proof.
  intros Hne Hall. induction Hall as [|t rest Ht Hrest IH]; [done|].
  destruct rest as [|t' rest].
  - simpl. by apply split_absent.
  - rewrite join_cons by done. cbn [app].
    rewrite (split_at_first c t _ Ht). f_equal. by apply IH.
Qed.

End SplitFacts.

(** ** [parse_email_address] *)

(** [parse_email_address] never raises: under its guard the piece after
    the first [<] exists, so every header value gives a name and an
    address. *)
Theorem parse_email_address_never_raises (header : str) :
  exists name email, parse_email_address header = Ok (name, email).
Proof. apply parse_email_address_total. Qed.

(** The parser on a header with one address between angle brackets. *)
Lemma parse_email_address_bracketed (pre addr post : str) :
  LT ∉ pre -> LT ∉ addr -> GT ∉ addr ->
  parse_email_address (pre ++ [LT] ++ addr ++ [GT] ++ post)
  = Ok (strip_chars [QUOTE] (strip pre), strip addr).
Proof.
  intros Hpre Haddr Hgt. unfold parse_email_address.
  assert (contains LT (pre ++ [LT] ++ addr ++ [GT] ++ post) = true) as ->.
  { apply contains_true. set_solver. }
  assert (contains GT (pre ++ [LT] ++ addr ++ [GT] ++ post) = true) as ->.
  { apply contains_true. set_solver. }
  cbn [andb app].
  rewrite (split_at_first LT pre _ Hpre).
  destruct (split_nonempty LT (GT :: post)) as (h & t & Hsplit).
  assert (exists h', h = GT :: h') as (h' & ->).
  { simpl in Hsplit. change (N.eqb GT LT) with false in Hsplit.
    destruct (split LT post) as [|h0 t0]; inversion Hsplit; by eexists. }
  rewrite (split_prefix LT addr (GT :: post) _ _ Haddr Hsplit).
  cbn. rewrite (split_at_first GT addr h' Hgt). reflexivity.
Qed.

(** The parser on a stripped text that lacks an angle bracket. *)
Lemma parse_email_address_plain (s : str) :
  LT ∉ s \/ GT ∉ s -> parse_email_address (strip s) = Ok (strip s, strip s).
Proof.
  intros Hs. unfold parse_email_address.
  assert (contains LT (strip s) && contains GT (strip s) = false) as ->.
  { apply andb_false_iff.
    destruct Hs as [H|H]; [left | right]; apply contains_false;
      intros Hin; apply H; by apply strip_by_elem in Hin. }
  unfold strip. by rewrite strip_by_idem.
Qed.

(** Where the address that the parser returns comes from: it is a stripped
    text; under the guard that text holds no angle bracket, and without
    the guard it lacks one of the two. *)
Lemma parse_email_address_source header name email :
  parse_email_address header = Ok (name, email) ->
  exists x,
    email = strip x
    /\ (LT ∉ x \/ GT ∉ x)
    /\ (contains LT header && contains GT header = true ->
        (LT ∉ x) /\ (GT ∉ x)).
Proof.
  unfold parse_email_address.
  destruct (contains LT header && contains GT header) eqn:Hc.
  - pose proof (split_pieces LT header) as Hpieces.
    destruct (split LT header) as [|before_lt [|after_lt rest]];
      try (cbn; done).
    apply Forall_cons in Hpieces as [_ Hpieces].
    apply Forall_cons in Hpieces as [[Hlt _] _].
    pose proof (split_pieces GT after_lt) as Hpieces. cbn.
    destruct (split GT after_lt) as [|before_gt rest']; [done|].
    apply Forall_cons in Hpieces as [[Hgt Hsub] _].
    cbn. intros [= _ <-]. exists before_gt.
    assert (LT ∉ before_gt) as Hlt' by (intros Hin; by apply Hlt, Hsub).
    split; [done|]. split; [by right | done].
  - intros [= _ <-]. exists header. split; [done|]. split; [|done].
    apply andb_false_iff in Hc as [H|H]; [left | right]; by apply contains_false.
Qed.

Lemma parse_email_address_fixed header name email :
  parse_email_address header = Ok (name, email) ->
  parse_email_address email = Ok (email, email).
Proof.
  intros H. apply parse_email_address_source in H as (x & -> & Hx & _).
  by apply parse_email_address_plain.
Qed.

(** The address that the parser returns is an address to the parser: it
    has no white space at its ends, parsing it gives it back as name and
    as address, and it holds no angle bracket when the header held
    both. *)
Theorem parse_email_address_address_fixed (header name email : str) :
  parse_email_address header = Ok (name, email) ->
  strip email = email
  /\ parse_email_address email = Ok (email, email)
  /\ (LT ∈ header -> GT ∈ header -> (LT ∉ email) /\ (GT ∉ email)).
Proof.
  intros H. pose proof (parse_email_address_fixed _ _ _ H) as Hfixed.
  apply parse_email_address_source in H as (x & -> & _ & Hx).
  split; [|split; [exact Hfixed|]].
  - unfold strip. apply strip_by_idem.
  - intros Hlt Hgt. destruct Hx as [Hxl Hxg].
    { apply andb_true_iff. split; by apply contains_true. }
    split; intros Hin; by apply strip_by_elem in Hin.
Qed.

(** [parse_email_address_address_fixed] on a header with a quoted name
    and white space inside the brackets. *)
Lemma parse_email_address_address_fixed_witness :
  strip (py "jane@example.com") = py "jane@example.com"
  /\ parse_email_address (py "jane@example.com")
     = Ok (py "jane@example.com", py "jane@example.com")
  /\ (LT ∈ SPACE :: QUOTE :: py "Doe, Jane" ++ QUOTE :: py " < jane@example.com > (work)" ->
      GT ∈ SPACE :: QUOTE :: py "Doe, Jane" ++ QUOTE :: py " < jane@example.com > (work)" ->
      (LT ∉ py "jane@example.com") /\ (GT ∉ py "jane@example.com")).
Proof.
  apply (parse_email_address_address_fixed
           (SPACE :: QUOTE :: py "Doe, Jane" ++ QUOTE :: py " < jane@example.com > (work)")
           (py "Doe, Jane") (py "jane@example.com")).
  reflexivity.
Defined.

(** ** [get_header_value] *)




(** ** [build_query] *)

Section QueryTerms.

Lemma digits_fuel_digits fuel : forall n acc,
  Forall is_digit_char acc -> Forall is_digit_char (digits_fuel fuel n acc).
Proof.
  induction fuel as [|fuel IH]; intros n acc Hacc; [done|]. simpl.
  assert (Forall is_digit_char ((48 + n mod 10)%N :: acc)) as Hacc'.
  { constructor; [|done]. unfold is_digit_char.
    pose proof (N.mod_upper_bound n 10 ltac:(done)) as Hlt.
    revert Hlt. generalize (n mod 10)%N. intros digit Hlt. lia. }
  destruct (n <? 10)%N; [done | by apply IH].
Qed.

Lemma zpad_digits width n : Forall is_digit_char (zpad width n).
Proof.
  unfold zpad. apply Forall_app. split.
  - apply Forall_forall. intros c Hc. apply list_elem_of_In, repeat_spec in Hc.
    subst. unfold is_digit_char. lia.
  - by apply digits_fuel_digits.
Qed.

Lemma digits_no_space (s : str) : Forall is_digit_char s -> SPACE ∉ s.
Proof.
  intros Hs Hin. rewrite Forall_forall in Hs. apply Hs in Hin.
  revert Hin. unfold is_digit_char. change SPACE with 32%N. lia.
Qed.

(** A date term holds no space. *)
Lemma date_term_no_space key d :
  SPACE ∉ key -> SPACE ∉ date_term key d.
Proof.
  intros Hkey. unfold date_term.
  change (strftime (py "%Y/%m/%d") d)
    with (decimal (Z.to_N (year d)) ++ ch "/" :: zpad 2 (month d)
            ++ ch "/" :: zpad 2 (day d) ++ []).
  repeat first
    [ exact Hkey
    | apply not_elem_of_nil
    | apply digits_no_space, zpad_digits
    | apply digits_no_space; by apply digits_fuel_digits
    | apply not_elem_of_cons; split; [done|]
    | apply not_elem_of_app; split ].
Qed.

Lemma terms_no_space unread_only dates labels :
  Forall (fun t => SPACE ∉ t) dates ->
  Forall (fun label => SPACE ∉ label) (default [] labels) ->
  Forall (fun t => SPACE ∉ t)
    (unread_terms unread_only ++ dates ++ label_terms labels).
Proof.
  intros Hdates Hlabels. apply Forall_app. split; [|apply Forall_app; split].
  - destruct unread_only; [|constructor]. constructor; [|constructor].
    apply (bool_decide_unpack _). vm_compute. reflexivity.
  - done.
  - unfold label_terms. apply Forall_map.
    eapply Forall_impl; [exact Hlabels|]. intros label Hl. cbn.
    apply not_elem_of_app. split; [|done].
    apply (bool_decide_unpack _). vm_compute. reflexivity.
Qed.

End QueryTerms.

Section QueryRecoverable.

Context {W : Type} (pf : platform W).

(** The query is its terms joined by single spaces, in the order unread
    term, date terms, label terms; the date terms are the one lower bound
    of a truthy day-count, or else those of [after] and [before].  When
    no label holds a space, splitting a query that is not empty at the
    spaces gives back exactly these terms: the terms do not run into each
    other. *)
Theorem build_query_terms (w : W) after before days unread_only labels q :
  outcome (run pf (build_query after before days unread_only labels) w) = Ok q ->
  Forall (fun label => SPACE ∉ label) (default [] labels) ->
  exists dates,
    (if truthy_int days
     then exists target_date,
            sub_days (clock pf w).1 (default 0 days) = Ok target_date
            /\ dates = [date_term (py "after:") target_date]
     else dates = range_terms after before)
    /\ q = join (py " ") (unread_terms unread_only ++ dates ++ label_terms labels)
    /\ (q <> [] ->
        split SPACE q = unread_terms unread_only ++ dates ++ label_terms labels).
Proof.
  intros Hq Hlabels.
  assert (forall dates,
             Forall (fun t => SPACE ∉ t) dates ->
             q = join (py " ") (unread_terms unread_only ++ dates ++ label_terms labels) ->
             q <> [] ->
             split SPACE q = unread_terms unread_only ++ dates ++ label_terms labels)
    as Hsplit.
  { intros dates Hdates -> Hne. apply (split_join SPACE).
    - intros Hnil. rewrite Hnil in Hne. by apply Hne.
    - by apply terms_no_space. }
  assert (SPACE ∉ py "after:") as Hafter
      by (apply (bool_decide_unpack _); vm_compute; reflexivity).
  assert (SPACE ∉ py "before:") as Hbefore
      by (apply (bool_decide_unpack _); vm_compute; reflexivity).
  destruct (truthy_int days) eqn:Hd.
  - destruct days as [d|]; [|done].
    assert (d <> 0) as Hnz by (simpl in Hd; by destruct (Z.eqb_spec d 0)).
    rewrite (build_query_days pf w _ _ _ _ _ Hnz) in Hq.
    unfold outcome in Hq. cbn in Hq.
    destruct (sub_days (clock pf w).1 d) as [t|e] eqn:Ht; [|done].
    injection Hq as <-. exists [date_term (py "after:") t].
    split; [by exists t|]. split; [done|]. apply Hsplit; [|done].
    constructor; [|constructor]. by apply date_term_no_space.
  - rewrite (build_query_range pf w _ _ _ _ _ Hd) in Hq.
    injection Hq as <-. exists (range_terms after before).
    split; [done|]. split; [done|]. apply Hsplit; [|done].
    unfold range_terms. apply Forall_app.
    split; [destruct after | destruct before]; repeat constructor;
      by apply date_term_no_space.
Qed.

End QueryRecoverable.

(** [build_query_terms] on a query with a range and two labels. *)
Lemma build_query_terms_witness :
  exists dates,
    dates = range_terms (Some new_year_2025) (Some noon_2025_10_06)
    /\ py "is:unread after:2025/01/01 before:2025/10/06 label:INBOX label:work"
       = join (py " ")
           (unread_terms true ++ dates
              ++ label_terms (Some [py "INBOX"; py "work"]))
    /\ (py "is:unread after:2025/01/01 before:2025/10/06 label:INBOX label:work"
        <> [] ->
        split SPACE
          (py "is:unread after:2025/01/01 before:2025/10/06 label:INBOX label:work")
        = unread_terms true ++ dates
            ++ label_terms (Some [py "INBOX"; py "work"])).
Proof.
  apply (build_query_terms fake_platform empty_mailbox (Some new_year_2025)
           (Some noon_2025_10_06) None true (Some [py "INBOX"; py "work"])).
  - reflexivity.
  - repeat constructor; apply (bool_decide_unpack _); vm_compute; reflexivity.
Defined.

(** ** [get_email_body] *)

Section BodyProvenance.

Lemma decoded_from_mono l1 l2 s :
  l1 ⊆ l2 -> decoded_from l1 s -> decoded_from l2 s.
Proof. intros Hsub (d & Hd & Hs). exists d. split; [by apply Hsub | done]. Qed.

Lemma walk_provenance parts : forall body s,
  Forall (fun c => forall s, get_email_body c = Ok s ->
                             s = [] \/ decoded_from (data_of c) s) parts ->
  walk get_email_body parts body = Ok s ->
  s = body \/ decoded_from (flat_map data_of parts) s.
Proof.
  induction parts as [|part rest IH]; intros body s Hparts.
  { intros [= <-]. by left. }
  apply Forall_cons in Hparts as [Hp Hrest].
  assert (data_of part ⊆ flat_map data_of (part :: rest)) as Hhere
      by (intros x Hx; apply elem_of_app; by left).
  assert (flat_map data_of rest ⊆ flat_map data_of (part :: rest)) as Hthere
      by (intros x Hx; apply elem_of_app; by right).
  assert (forall body',
             walk get_email_body rest body' = Ok s ->
             body' = body \/ decoded_from (data_of part) body' ->
             s = body \/ decoded_from (flat_map data_of (part :: rest)) s)
    as Hnext.
  { intros body' Hw Hb'. destruct (IH body' s Hrest Hw) as [->|Hs].
    - destruct Hb' as [->|Hb']; [by left|].
      right. by apply (decoded_from_mono (data_of part)).
    - right. by apply (decoded_from_mono (flat_map data_of rest)). }
  destruct (plain_with_data part) eqn:Hplain.
  - apply andb_true_iff in Hplain as Hpd. destruct Hpd as [_ Hdata].
    destruct (has_data_body_data _ Hdata) as (d & Hd & Hin).
    rewrite (walk_plain _ _ _ _ d Hplain Hd). intros Hs.
    right. exists d. split; [by apply Hhere | done].
  - rewrite (walk_step _ _ _ _ Hplain).
    assert (forall body', html_step part body = Ok body' ->
                          body' = body \/ decoded_from (data_of part) body')
      as Hstep.
    { intros body'. unfold html_step.
      destruct (html_with_data part) eqn:Hhtml; [|intros [= <-]; by left].
      apply andb_true_iff in Hhtml as [_ Hdata].
      destruct (has_data_body_data _ Hdata) as (d & Hd & Hin).
      rewrite Hd. cbn. intros Hs. right. by exists d. }
    destruct (html_step part body) as [body'|e]; [|done].
    specialize (Hstep body' eq_refl). cbn [mbind result_bind].
    destruct (has_parts part); [|intros Hw; by apply (Hnext body')].
    destruct (get_email_body part) as [nested|e] eqn:Hn; [|done].
    cbn [mbind result_bind]. destruct (truthy_str nested) eqn:Ht.
    + intros [= <-]. destruct (Hp nested eq_refl) as [->|Hs]; [done|].
      right. by apply (decoded_from_mono (data_of part)).
    + intros Hw. by apply (Hnext body').
Qed.

(** What [get_email_body] returns is the empty string or the decoding of
    one data segment of the payload: it never joins segments, and it
    returns no text that is in no segment. *)
Theorem get_email_body_provenance (p : payload) (s : str) :
  get_email_body p = Ok s -> s = [] \/ decoded_from (data_of p) s.
Proof.
  revert s. induction p as [mt hs b ps IH] using payload_ind. intros s.
  rewrite get_email_body_unfold.
  destruct (has_data (Payload mt hs b ps)) eqn:Hdata.
  - destruct (has_data_body_data _ Hdata) as (d & Hd & Hin).
    rewrite Hd. cbn [mbind result_bind]. intros Hs. right. by exists d.
  - destruct ps as [parts|]; [|intros [= <-]; by left]. cbn [p_parts].
    intros Hw. destruct (walk_provenance parts [] s IH Hw) as [->|Hs];
      [by left|].
    right. eapply decoded_from_mono; [|exact Hs].
    intros x Hx. apply elem_of_app. by right.
Qed.

End BodyProvenance.

(** [get_email_body_provenance] on the payload of the dated message, whose
    segments are an HTML and a plain text. *)
Lemma get_email_body_provenance_witness :
  py "hello" = [] \/ decoded_from [html_hi; plain_hello] (py "hello").
Proof.
  apply (get_email_body_provenance (msg_payload msg_dated) (py "hello")).
  reflexivity.
Defined.

Section SkippedParts.

Variable recurse : payload -> result str.

Lemma walk_skipped_here part rest body :
  skipped part -> walk recurse (part :: rest) body = walk recurse rest body.
Proof.
  intros (Hplain & Hhtml & Hparts).
  rewrite (walk_step _ _ _ _ Hplain). unfold html_step.
  by rewrite Hhtml, Hparts.
Qed.

Lemma walk_skipped pre part rest : forall body,
  skipped part ->
  walk recurse (pre ++ part :: rest) body = walk recurse (pre ++ rest) body.
Proof.
  induction pre as [|x pre IH]; intros body Hs.
  { by apply walk_skipped_here. }
  change ((x :: pre) ++ part :: rest) with (x :: (pre ++ part :: rest)).
  change ((x :: pre) ++ rest) with (x :: (pre ++ rest)).
  destruct (plain_with_data x) eqn:Hplain.
  - apply andb_true_iff in Hplain as Hpd. destruct Hpd as [_ Hdata].
    destruct (has_data_body_data _ Hdata) as (d & Hd & _).
    by rewrite !(walk_plain _ _ _ _ d Hplain Hd).
  - rewrite !(walk_step _ _ _ _ Hplain).
    destruct (html_step x body) as [body'|e]; [|done].
    cbn [mbind result_bind].
    destruct (has_parts x); [|by apply IH].
    destruct (recurse x) as [nested|e]; [|done].
    cbn [mbind result_bind]. destruct (truthy_str nested); [done | by apply IH].
Qed.

End SkippedParts.

(** A child that is neither plain text nor HTML with data and has no
    children (an attachment, a text part without data) has no effect on
    the body, wherever it stands among the children of a multipart
    payload: the body is that of the payload without it. *)
Theorem get_email_body_skips mt hs b pre part rest :
  skipped part ->
  get_email_body (Payload mt hs b (Some (pre ++ part :: rest)))
  = get_email_body (Payload mt hs b (Some (pre ++ rest))).
Proof.
  intros Hs. rewrite !get_email_body_unfold.
  assert (has_data (Payload mt hs b (Some (pre ++ part :: rest)))
          = has_data (Payload mt hs b (Some (pre ++ rest)))) as -> by done.
  assert (body_data (Payload mt hs b (Some (pre ++ part :: rest)))
          = body_data (Payload mt hs b (Some (pre ++ rest)))) as -> by done.
  destruct (has_data _); [done|]. cbn [p_parts]. by apply walk_skipped.
Qed.

(** [get_email_body_skips] on a message with an attachment between its
    HTML and its plain part. *)
Lemma get_email_body_skips_witness :
  get_email_body
    (Payload (Some (py "multipart/mixed")) [] None
       (Some ([leaf TEXT_HTML [] html_hi] ++ attachment
                :: [leaf TEXT_PLAIN [] plain_hello])))
  = get_email_body
      (Payload (Some (py "multipart/mixed")) [] None
         (Some ([leaf TEXT_HTML [] html_hi] ++ [leaf TEXT_PLAIN [] plain_hello]))).
Proof.
  apply (get_email_body_skips (Some (py "multipart/mixed")) [] None
           [leaf TEXT_HTML [] html_hi] attachment [leaf TEXT_PLAIN [] plain_hello]).
  repeat split.
Defined.

(** ** [fetch_emails] *)

Section RunErrors.

Context {W : Type} (pf : platform W).

(** A program has no handler: the call that fails is its last call, and
    the program raises the error of that call. *)
Lemma run_error_last {A} (p : prog A) : forall (w : W) pre ev post e,
  trace (run pf p w) = pre ++ ev :: post ->
  error_of ev = Some e ->
  post = [] /\ outcome (run pf p w) = Raise e.
Proof.
  induction p as [a|e0|X c k IH]; intros w pre ev post e.
  - intros H. by destruct pre.
  - intros H. by destruct pre.
  - simpl. destruct (handle pf c w) as [[x|e1] w1] eqn:Hh.
    + specialize (IH x w1). destruct (run pf (k x) w1) as [[r w2] tr].
      unfold trace, outcome in *. cbn in *.
      destruct pre as [|ev0 pre].
      * intros [= <- <-] He. by destruct c.
      * intros [= _ ->] He. by apply (IH pre ev post e).
    + unfold trace, outcome. cbn.
      destruct pre as [|ev0 pre]; [|by destruct pre].
      intros [= <- <-] He. split; [done|].
      destruct c; cbn in *; congruence.
Qed.

End RunErrors.

Lemma mem_str_true (s : str) (l : list str) : mem_str s l = true <-> s ∈ l.
Proof.
  unfold mem_str. rewrite existsb_exists. split.
  - intros (x & Hin & Hx). apply bool_decide_eq_true in Hx. subst.
    by apply list_elem_of_In.
  - intros Hin. exists s. split; [by apply list_elem_of_In | apply str_eqb_refl].
Qed.

Section FetchAbort.

Context {W : Type} (pf : platform W).
Variable parse : str -> result datetime.

Lemma fetch_detail_gets ref (w : W) :
  get_ids (trace (run pf (fetch_detail parse ref) w)) = [ref_id ref].
Proof.
  rewrite run_fetch_detail.
  destruct (get_message pf (ref_id ref) w) as [[msg|e] w1]; [|done].
  destruct (parse_email_address (header_of msg (py "From"))) as [sender|e];
    [|done].
  destruct (truthy_str (header_of msg (py "Date"))); [done|].
  by destruct (clock pf w1) as [now w2].
Qed.

Lemma get_ids_app tr1 tr2 : get_ids (tr1 ++ tr2) = get_ids tr1 ++ get_ids tr2.
Proof. unfold get_ids, get_events. by rewrite omap_app, map_app. Qed.

(** The loop asks for the references in order, as far as it gets. *)
Lemma fetch_details_gets refs : forall acc (w : W),
  get_ids (trace (run pf (fetch_details parse refs acc) w))
  `prefix_of` map ref_id refs.
Proof.
  induction refs as [|ref refs IH]; intros acc w; [done|].
  rewrite run_fetch_details_cons.
  pose proof (fetch_detail_gets ref w) as Hone.
  destruct (run pf (fetch_detail parse ref) w) as [[[email|e] w1] tr].
  - specialize (IH (acc ++ [email]) w1).
    destruct (run pf (fetch_details parse refs (acc ++ [email])) w1)
      as [[r2 w2] tr2].
    unfold trace in *. cbn [snd] in *. rewrite get_ids_app, Hone.
    by apply prefix_cons.
  - unfold trace in *. cbn [snd] in *. rewrite Hone.
    apply prefix_cons, prefix_nil.
Qed.

(** When [fetch_emails] returns, its emails are the normalized forms of
    messages. *)
Lemma fetch_emails_normalized (w : W) after before days unread_only labels
    max_results emails :
  outcome (run pf (fetch_emails parse after before days unread_only labels
                     max_results) w) = Ok emails ->
  exists msgs, Forall2 normalized msgs emails.
Proof.
  rewrite run_fetch_emails.
  destruct (service pf w) as [[u|e] w1]; [|done].
  destruct (run pf (build_query after before days unread_only labels) w1)
    as [[[q|e] w2] trq]; [|done].
  cbn zeta.
  destruct (list_messages pf q max_results (console pf (py "Gmail query: " ++ q) w2))
    as [[results|e] w3]; [|done].
  destruct (default [] (messages results)) as [|ref refs].
  { intros [= <-]. by exists []. }
  pose proof (fetch_details_ok pf parse (ref :: refs) []
                (console pf (found_line (ref :: refs)) w3) emails) as Hok.
  destruct (run pf (fetch_details parse (ref :: refs) [])
              (console pf (found_line (ref :: refs)) w3)) as [[r w4] tr].
  intros Hout. destruct (Hok Hout) as (msgs & es & -> & _ & _ & Hn).
  by exists msgs.
Qed.

(** In every run of [fetch_emails], also one that fails: the messages are
    asked for in the order of the list response, as far as the run gets;
    no message is asked for unless [messages().list] was called, once, and
    answered; and a [messages().get] that fails is the last call of the
    run, whose outcome is the error of that call: the emails built so far
    are dropped. *)
Theorem fetch_emails_gets (w : W) after before days unread_only labels max_results :
  let x := run pf (fetch_emails parse after before days unread_only labels
                     max_results) w in
  (forall q n results,
      (q, n, Ok results) ∈ list_events (trace x) ->
      get_ids (trace x) `prefix_of` map ref_id (default [] (messages results)))
  /\ (forall i r,
        (i, r) ∈ get_events (trace x) ->
        exists q results, list_events (trace x) = [(q, max_results, Ok results)])
  /\ (forall i e,
        (i, Raise e) ∈ get_events (trace x) ->
        outcome x = Raise e
        /\ exists pre, trace x = pre ++ [EvGet i (Raise e)]).
Proof.
  intros x. split; [|split].
  - subst x. rewrite run_fetch_emails.
    destruct (service pf w) as [[u|e] w1].
    2:{ intros q n results Hin. by apply elem_of_nil in Hin. }
    pose proof (build_query_calls pf w1 after before days unread_only labels)
      as [Hql Hqg].
    destruct (run pf (build_query after before days unread_only labels) w1)
      as [[[q|e] w2] trq].
    2:{ intros q n results Hin. unfold trace, list_events in *. cbn in *.
        rewrite Hql in Hin. by apply elem_of_nil in Hin. }
    cbn zeta.
    destruct (list_messages pf q max_results (console pf (py "Gmail query: " ++ q) w2))
      as [[results|e] w3].
    2:{ intros q' n results Hin. unfold trace, list_events in *. cbn in *.
        rewrite omap_app, Hql in Hin. cbn in Hin.
        by apply list_elem_of_singleton in Hin. }
    destruct (default [] (messages results)) as [|ref refs] eqn:Hrefs.
    + intros q' n results' Hin.
      unfold trace, list_events, get_ids, get_events in *. cbn in *.
      rewrite !omap_app, Hqg. cbn. apply prefix_nil.
    + pose proof (fetch_details_gets (ref :: refs) []
                    (console pf (found_line (ref :: refs)) w3)) as Hpre.
      pose proof (fetch_details_no_list pf parse (ref :: refs) []
                    (console pf (found_line (ref :: refs)) w3)) as Hnl.
      destruct (run pf (fetch_details parse (ref :: refs) [])
                  (console pf (found_line (ref :: refs)) w3)) as [[r w4] tr].
      intros q' n results' Hin.
      unfold trace, list_events, get_ids, get_events in *. cbn in *.
      rewrite !omap_app, Hql in Hin. cbn in Hin. rewrite Hnl in Hin.
      apply list_elem_of_singleton in Hin as [= _ _ <-].
      rewrite !omap_app, Hqg. cbn. by rewrite Hrefs.
  - subst x. rewrite run_fetch_emails.
    destruct (service pf w) as [[u|e] w1].
    2:{ intros i r Hin. by apply elem_of_nil in Hin. }
    pose proof (build_query_calls pf w1 after before days unread_only labels)
      as [Hql Hqg].
    destruct (run pf (build_query after before days unread_only labels) w1)
      as [[[q|e] w2] trq].
    2:{ intros i r Hin. unfold trace, get_events in *. cbn in *.
        rewrite Hqg in Hin. by apply elem_of_nil in Hin. }
    cbn zeta.
    destruct (list_messages pf q max_results (console pf (py "Gmail query: " ++ q) w2))
      as [[results|e] w3].
    2:{ intros i r Hin. unfold trace, get_events in *. cbn in *.
        rewrite omap_app, Hqg in Hin. by apply elem_of_nil in Hin. }
    destruct (default [] (messages results)) as [|ref refs] eqn:Hrefs.
    + intros i r Hin. unfold trace, get_events in *. cbn in *.
      rewrite omap_app, Hqg in Hin. by apply elem_of_nil in Hin.
    + pose proof (fetch_details_no_list pf parse (ref :: refs) []
                    (console pf (found_line (ref :: refs)) w3)) as Hnl.
      destruct (run pf (fetch_details parse (ref :: refs) [])
                  (console pf (found_line (ref :: refs)) w3)) as [[r' w4] tr].
      intros i r _. exists q, results.
      unfold trace, list_events in *. cbn in *.
      rewrite !omap_app, Hql. cbn. by rewrite Hnl.
  - intros i e Hin. unfold get_events in Hin.
    apply list_elem_of_omap in Hin as (ev & Hev & Hi).
    destruct ev as [| | | |i' r']; try done. injection Hi as -> ->.
    apply list_elem_of_split in Hev as (pre & post & Htr).
    destruct (run_error_last pf _ w pre (EvGet i (Raise e)) post e Htr eq_refl)
      as [-> Hout].
    split; [exact Hout | by exists pre].
Qed.

(** Every email that [fetch_emails] returns has a subject that is not
    empty, is marked unread exactly when its labels hold [UNREAD], and
    carries an address that the parser of the fetcher reads as itself. *)
Theorem fetch_emails_invariants (w : W) after before days unread_only labels
    max_results emails :
  outcome (run pf (fetch_emails parse after before days unread_only labels
                     max_results) w) = Ok emails ->
  Forall (fun email =>
            Email.subject email <> []
            /\ (Email.is_unread email = true
                <-> py "UNREAD" ∈ Email.labels email)
            /\ parse_email_address (Email.sender_email email)
               = Ok (Email.sender_email email, Email.sender_email email))
    emails.
Proof.
  intros Hout. apply fetch_emails_normalized in Hout as (msgs & Hn).
  induction Hn as [|msg email msgs emails Hone _ IH]; constructor; [|exact IH].
  destruct Hone as ([name addr] & date & body & Hsender & _ & ->).
  split; [|split].
  - cbn. by destruct (header_of msg (py "Subject")).
  - apply mem_str_true.
  - cbn. exact (parse_email_address_fixed _ name addr Hsender).
Qed.

End FetchAbort.

(** [fetch_emails_gets], third part, on a mailbox that lists a message
    which the service then fails to return: the fetch raises the error of
    that call, after the first message was fetched. *)
Lemma fetch_emails_gets_witness :
  outcome (run lossy_platform
             (fetch_emails parsedate_to_datetime None None (Some 7) true None 100)
             two_messages)
  = Raise HttpError
  /\ exists pre,
       trace (run lossy_platform
                (fetch_emails parsedate_to_datetime None None (Some 7) true None 100)
                two_messages)
       = pre ++ [EvGet (py "m2") (Raise HttpError)].
Proof.
  apply (proj2 (proj2 (fetch_emails_gets lossy_platform parsedate_to_datetime
                         two_messages None None (Some 7) true None 100))).
  vm_compute. apply list_elem_of_further, list_elem_of_here.
Defined.

(** [fetch_emails_invariants] on the test service with two messages; the
    second has no Subject header. *)
Lemma fetch_emails_invariants_witness :
  Forall (fun email =>
            Email.subject email <> []
            /\ (Email.is_unread email = true
                <-> py "UNREAD" ∈ Email.labels email)
            /\ parse_email_address (Email.sender_email email)
               = Ok (Email.sender_email email, Email.sender_email email))
    [email_of msg_dated (py "John Doe", py "john@example.com")
       (mk_datetime 2025 9 29 10 0 0 0) (py "hello");
     email_of msg_undated (py "jane@example.com", py "jane@example.com")
       (mk_datetime 2025 10 6 12 0 1 0) (py "hello")].
Proof.
  apply (fetch_emails_invariants fake_platform parsedate_to_datetime
           two_messages None None (Some 7) true None 100).
  reflexivity.
Defined.

Section ExplicitNoDays.

Context {W : Type} (pf : platform W).
Variable parse : str -> result datetime.

(** When [days=None] is passed explicitly together with a lower bound,
    every query that [fetch_emails] passes to [messages().list] is built
    from the unread term, the lower-bound term of [after], the term of
    [before] if any, and the label terms. *)
Theorem fetch_emails_after_with_no_days
    (w : W) a before unread_only labels max_results q n r :
  (q, n, r) ∈ list_events
                (trace (run pf (fetch_emails parse (Some a) before None
                                  unread_only labels max_results) w)) ->
  q = join (py " ")
        (unread_terms unread_only
           ++ [date_term (py "after:") a]
           ++ range_terms None before ++ label_terms labels).
Proof. intros Hin. by apply fetch_emails_query_after in Hin. Qed.

End ExplicitNoDays.

(** [fetch_emails_after_with_no_days] on the test service. *)
Lemma fetch_emails_after_with_no_days_witness :
  py "is:unread after:2025/01/01"
  = join (py " ")
      (unread_terms true
         ++ [date_term (py "after:") new_year_2025]
         ++ range_terms None None ++ label_terms None).
Proof.
  apply (fetch_emails_after_with_no_days fake_platform parsedate_to_datetime
           two_messages new_year_2025 None true None 100
           (py "is:unread after:2025/01/01") 100
           (Ok (mk_list_response
                  (Some [mk_ref (py "m1") (py "t1"); mk_ref (py "m2") (py "t2")])))).
  apply list_elem_of_here.
Defined.

(** ** The last-run store as one cell *)

Section StoreCell.

Variable json_dumps : json -> str.
Variable json_loads : str -> result json.
Variable dt_timestamp : datetime -> float.
Variable fromtimestamp_float : float -> result datetime.
Variable fromtimestamp_int : Z -> result datetime.

Local Abbreviation get_last_run :=
  (State.get_last_run json_loads fromtimestamp_float fromtimestamp_int).
Local Abbreviation save_last_run := (State.save_last_run json_dumps dt_timestamp).
Local Abbreviation marker := (State.marker dt_timestamp).
Local Abbreviation op_on := (apply_op json_dumps dt_timestamp).
Local Abbreviation ops_on := (apply_ops json_dumps dt_timestamp).

(** What is read depends on the marker file only. *)
Lemma get_last_run_files w w' :
  files w !! STATE_FILE = files w' !! STATE_FILE ->
  get_last_run w = get_last_run w'.
Proof.
  intros Heq. destruct (files w !! STATE_FILE) as [content|] eqn:Hw.
  - by rewrite (get_last_run_file _ _ _ w content Hw),
               (get_last_run_file _ _ _ w' content).
  - by rewrite (get_last_run_no_file _ _ _ w Hw), (get_last_run_no_file _ _ _ w').
Qed.

Lemma get_last_run_reset w : get_last_run (reset_last_run w) = Ok None.
Proof.
  unfold reset_last_run. destruct (exists_ STATE_FILE w) eqn:Hex.
  - rewrite get_last_run_print. apply get_last_run_no_file.
    cbn. apply lookup_delete_eq.
  - rewrite get_last_run_print. apply get_last_run_no_file.
    unfold exists_ in Hex. apply bool_decide_eq_false in Hex.
    by apply eq_None_not_Some.
Qed.

Lemma get_last_run_saved T T' w :
  json_loads (json_dumps (marker T)) = Ok (marker T) ->
  PrimFloat.eqb (dt_timestamp T) 0 = false ->
  fromtimestamp_float (dt_timestamp T) = Ok T' ->
  get_last_run (save_last_run (Some T) w) = Ok (Some T').
Proof.
  intros Hjson Hnz Hfrom.
  unfold State.save_last_run. rewrite get_last_run_print.
  rewrite (get_last_run_file _ _ _ _ (json_dumps (marker T))).
  2:{ cbn. apply lookup_insert_eq. }
  cbn [default]. rewrite Hjson.
  cbn [mbind result_bind get State.marker assoc].
  rewrite str_eqb_refl. cbn [default from_option id truthy]. rewrite Hnz.
  cbn [negb fromtimestamp]. by rewrite Hfrom.
Qed.

Lemma apply_op_now op w : now (op_on op w) = now w.
Proof.
  destruct op as [t|]; [done|]. unfold apply_op, reset_last_run.
  by destruct (exists_ STATE_FILE w).
Qed.

Lemma apply_ops_now ops : forall w, now (ops_on ops w) = now w.
Proof.
  induction ops as [|op ops IH]; intros w; [done|].
  change (ops_on (op :: ops) w) with (ops_on ops (op_on op w)).
  by rewrite IH, apply_op_now.
Qed.

Lemma apply_op_frame op w path :
  path <> STATE_FILE -> files (op_on op w) !! path = files w !! path.
Proof.
  intros Hp. destruct op as [t|].
  - cbn. by apply lookup_insert_ne.
  - unfold apply_op, reset_last_run. destruct (exists_ STATE_FILE w); [|done].
    cbn. by apply lookup_delete_ne.
Qed.

Lemma apply_op_marker op w w' :
  now w' = now w ->
  files (op_on op w) !! STATE_FILE = files (op_on op w') !! STATE_FILE
  \/ (op = Reset /\ files (op_on op w) !! STATE_FILE = None).
Proof.
  intros Hnow. destruct op as [t|].
  - left. cbn. rewrite Hnow. by rewrite !lookup_insert_eq.
  - right. split; [done|]. unfold apply_op, reset_last_run.
    destruct (exists_ STATE_FILE w) eqn:Hex.
    + cbn. apply lookup_delete_eq.
    + cbn. unfold exists_ in Hex. apply bool_decide_eq_false in Hex.
      by apply eq_None_not_Some.
Qed.

(** The store is one cell.  A sequence of saves and resets leaves every
    file but the marker as it was, and what is read after the sequence is
    what is read after its last operation alone in an empty directory:
    neither the earlier operations nor the earlier content of the marker
    (valid or not) has any effect. *)
Theorem store_last_operation (ops : list store_op) (op : store_op) (w : world) :
  (forall path, path <> STATE_FILE ->
                files (ops_on (ops ++ [op]) w) !! path = files w !! path)
  /\ get_last_run (ops_on (ops ++ [op]) w)
     = get_last_run (op_on op (mk_world ∅ (now w) [])).
Proof.
  split.
  - intros path Hp. generalize (ops ++ [op]). clear ops op.
    intros ops. revert w. induction ops as [|op ops IH]; intros w; [done|].
    change (ops_on (op :: ops) w) with (ops_on ops (op_on op w)).
    by rewrite IH, apply_op_frame.
  - assert (ops_on (ops ++ [op]) w = op_on op (ops_on ops w)) as ->.
    { unfold apply_ops. by rewrite foldl_app. }
    destruct (apply_op_marker op (ops_on ops w) (mk_world ∅ (now w) []))
      as [Heq|[-> Hnone]].
    + cbn. by rewrite apply_ops_now.
    + by apply get_last_run_files.
    + rewrite (get_last_run_no_file _ _ _ _ Hnone). symmetry.
      apply get_last_run_no_file. done.
Qed.

End StoreCell.

(** [store_last_operation] in UTC, on a directory that holds a file of
    notes and a marker that is no JSON: after a save, a reset and a second
    save, the notes are as before and the store reads the second time
    saved. *)
Lemma store_last_operation_witness :
  files (apply_ops json_dumps utc_timestamp
           ([Save (Some new_year_2025); Reset] ++ [Save (Some morning_2025_09_29)])
           (write_text STATE_FILE (py "{not json") world_with_notes))
    !! py "notes.txt"
  = Some (py "keep")
  /\ State.get_last_run json_loads utc_fromtimestamp_float utc_fromtimestamp_int
       (apply_ops json_dumps utc_timestamp
          ([Save (Some new_year_2025); Reset] ++ [Save (Some morning_2025_09_29)])
          (write_text STATE_FILE (py "{not json") world_with_notes))
     = Ok (Some morning_2025_09_29).
Proof.
  destruct (store_last_operation json_dumps json_loads utc_timestamp
              utc_fromtimestamp_float utc_fromtimestamp_int
              [Save (Some new_year_2025); Reset] (Save (Some morning_2025_09_29))
              (write_text STATE_FILE (py "{not json") world_with_notes))
    as [Hframe Hread].
  split.
  - etrans; [apply (Hframe (py "notes.txt")); vm_compute; discriminate|].
    vm_compute. reflexivity.
  - etrans; [exact Hread|]. vm_compute. reflexivity.
Defined.

(** ** The text of an email *)

(** The text of an email starts with a From line that the parser of the
    fetcher reads back: when the name holds no [<] and has no white space
    or double quote at its ends, and the address holds no angle bracket
    and has no white space at its ends, parsing the sender as it is shown
    gives the name and the address again. *)
Theorem email_str_sender_parses (email : Email.t) :
  LT ∉ Email.sender email ->
  strip (Email.sender email) = Email.sender email ->
  strip_chars [QUOTE] (Email.sender email) = Email.sender email ->
  LT ∉ Email.sender_email email ->
  GT ∉ Email.sender_email email ->
  strip (Email.sender_email email) = Email.sender_email email ->
  (exists rest,
      Models.__str__ email = py "From: " ++ sender_line email ++ Models.NL :: rest)
  /\ parse_email_address (sender_line email)
     = Ok (Email.sender email, Email.sender_email email).
Proof.
  intros Hlt Hstrip Hquote Halt Hagt Hastrip. split.
  - unfold Models.__str__, sender_line. eexists.
    rewrite <- !app_assoc. reflexivity.
  - unfold sender_line.
    change (Email.sender email ++ py " <" ++ Email.sender_email email ++ py ">")
      with (Email.sender email ++ [SPACE] ++ [LT] ++ Email.sender_email email
              ++ [GT] ++ []).
    rewrite (app_assoc (Email.sender email) [SPACE]).
    rewrite parse_email_address_bracketed; try done.
    + assert (strip (Email.sender email ++ [SPACE]) = Email.sender email) as ->.
      { rewrite <- Hstrip at 2. by apply strip_by_snoc. }
      by rewrite Hquote, Hastrip.
    + intros Hin. apply elem_of_app in Hin as [Hin|Hin]; [done|].
      apply list_elem_of_singleton in Hin. done.
Qed.

(** [email_str_sender_parses] on the first email of the test service. *)
Lemma email_str_sender_parses_witness :
  (exists rest,
      Models.__str__ email_john
      = py "From: " ++ sender_line email_john ++ Models.NL :: rest)
  /\ parse_email_address (py "John Doe <john@example.com>")
     = Ok (py "John Doe", py "john@example.com").
Proof.
  apply (email_str_sender_parses email_john);
    first [ reflexivity
          | apply (bool_decide_unpack _); vm_compute; reflexivity ].
Defined.

(** ** The commands of [main.py] *)

Section Sessions.

Context {W T : Type}.
Implicit Types (s : Main.session W T) (R : relation (Main.session W T)).
Implicit Types (Q : event -> Prop).

#[global] Instance logs_preorder Q : PreOrder (@logs W T Q).
Proof.
  split.
  - intros s. split; [done|]. exists []. by rewrite app_nil_r.
  - intros s1 s2 s3 [H1 (tr1 & E1 & Q1)] [H2 (tr2 & E2 & Q2)].
    split; [congruence|]. exists (tr1 ++ tr2). split.
    + by rewrite E2, E1, app_assoc.
    + by apply Forall_app.
Qed.

Lemma logs_weaken Q Q' s s' :
  (forall ev, Q ev -> Q' ev) -> logs Q s s' -> logs Q' s s'.
Proof.
  intros HQ [H1 (tr & E & Htr)]. split; [done|]. exists tr. split; [done|].
  by eapply Forall_impl.
Qed.

Lemma keeps_ret R `{!Reflexive R} {A} (a : A) : keeps R (mret a : Main.M W T A).
Proof. intros s r s' [= _ <-]. reflexivity. Qed.

Lemma keeps_bind R `{!Transitive R} {A B} (m : Main.M W T A) (f : A -> Main.M W T B) :
  keeps R m -> (forall a, keeps R (f a)) -> keeps R (m ≫= f).
Proof.
  intros Hm Hf s r s'. unfold mbind, Main.M_bind.
  destruct (m s) as [[a|e] s1] eqn:H1.
  - intros H2. etrans; [by eapply Hm | by eapply Hf].
  - intros [= _ <-]. by eapply Hm.
Qed.

Lemma keeps_raising R `{!Reflexive R} {A} (r : result A) :
  keeps R (Main.raising r : Main.M W T A).
Proof. intros s r' s' [= _ <-]. reflexivity. Qed.

Lemma keeps_reading R `{!Reflexive R} {A} (f : State.world -> result A) :
  keeps R (Main.reading (W:=W) (T:=T) f).
Proof. intros s r s' [= _ <-]. reflexivity. Qed.

(** A step followed by another: the first raises, or it returns and the
    second runs. *)
Lemma bind_cases {A B} (m : Main.M W T A) (f : A -> Main.M W T B) s r s' :
  (m ≫= f) s = (r, s') ->
  (exists e, m s = (Raise e, s') /\ r = Raise e)
  \/ (exists a s1, m s = (Ok a, s1) /\ f a s1 = (r, s')).
Proof.
  unfold mbind, Main.M_bind. destruct (m s) as [[a|e] s1].
  - intros H. right. by exists a, s1.
  - intros [= <- <-]. left. by exists e.
Qed.

Lemma logs_asking Q {A} (f : T -> result A * T) :
  keeps (logs Q) (Main.asking (W:=W) f).
Proof.
  intros s r s'. unfold Main.asking. destruct (f (Main.tty s)) as [r1 t].
  intros [= _ <-]. split; [done|]. exists []. by rewrite app_nil_r.
Qed.

Lemma logs_telling Q (f : T -> T) : keeps (logs Q) (Main.telling (W:=W) f).
Proof.
  intros s r s' [= _ <-]. split; [done|]. exists []. by rewrite app_nil_r.
Qed.

Variable pf : platform W.

Lemma logs_exec Q {A} (p : prog A) :
  (forall w, Forall Q (trace (run pf p w))) ->
  keeps (logs Q) (Main.exec (T:=T) pf p).
Proof.
  intros HQ s r s'. unfold Main.exec. specialize (HQ (Main.mail s)).
  destruct (run pf p (Main.mail s)) as [[r1 m] tr]. intros [= _ <-].
  split; [done|]. by exists tr.
Qed.

Lemma logs_print Q line :
  Q (EvPrint line) -> keeps (logs Q) (Main.print (T:=T) pf line).
Proof. intros HQ. apply logs_exec. intros w. by constructor. Qed.

Lemma print_ok line s :
  Main.print pf line s
  = (Ok tt, Main.mk_session (Main.store s) (console pf line (Main.mail s))
              (Main.tty s) (Main.calls s ++ [EvPrint line])).
Proof. done. Qed.

Lemma datetime_now_ok s :
  Main.datetime_now pf s
  = (Ok (clock pf (Main.mail s)).1,
     Main.mk_session (Main.store s) (clock pf (Main.mail s)).2 (Main.tty s)
       (Main.calls s ++ [EvNow (Ok (clock pf (Main.mail s)).1)])).
Proof.
  unfold Main.datetime_now, Main.exec. rewrite run_perform. cbn [handle].
  by destruct (clock pf (Main.mail s)).
Qed.

End Sessions.

(** One step of a proof that a command keeps a relation. *)
Ltac keeps_step :=
  first
    [ refine (keeps_ret _ _)
    | refine (keeps_raising _ _)
    | refine (keeps_reading _ _)
    | apply logs_asking
    | apply logs_telling
    | apply logs_print; done
    | refine (keeps_bind _ _ _ _ _); [|intros ?]
    | match goal with
      | |- keeps _ (if ?b then _ else _) => destruct b
      | |- keeps _ (match ?x with Some _ => _ | None => _ end) => destruct x
      | |- keeps _ (let '(_, _) := ?x in _) => destruct x
      end ].

Section Displays.

Context {W : Type} (pf : platform W).



Variable parse : str -> result datetime.


End Displays.

Section FetchCommand.

Context {W T : Type}.
Variable pf : platform W.
Variable tm : Main.terminal T.
Variable parsedate_to_datetime : str -> result datetime.
Variable json_dumps : json -> str.
Variable json_loads : str -> result json.
Variable dt_timestamp : datetime -> float.
Variable fromtimestamp_float : float -> result datetime.
Variable fromtimestamp_int : Z -> result datetime.
Variable strptime : str -> str -> result datetime.
Variable is_FileNotFoundError : exn -> bool.
Variable str_exn : exn -> str.

Local Abbreviation fetch_options :=
  (Main.fetch_options pf tm json_loads fromtimestamp_float fromtimestamp_int
     strptime).
Local Abbreviation fetch_strategy :=
  (Main.fetch_strategy (T:=T) pf parsedate_to_datetime json_loads
     fromtimestamp_float fromtimestamp_int).
Local Abbreviation fetch_try :=
  (Main.fetch_try pf tm parsedate_to_datetime json_dumps json_loads dt_timestamp
     fromtimestamp_float fromtimestamp_int strptime).
Local Abbreviation fetch_except :=
  (Main.fetch_except (W:=W) tm is_FileNotFoundError str_exn).
Local Abbreviation fetch :=
  (Main.fetch pf tm parsedate_to_datetime json_dumps json_loads dt_timestamp
     fromtimestamp_float fromtimestamp_int strptime is_FileNotFoundError str_exn).
Local Abbreviation get_last_run :=
  (State.get_last_run json_loads fromtimestamp_float fromtimestamp_int).
Local Abbreviation save_last_run := (State.save_last_run json_dumps dt_timestamp).
Local Abbreviation marker := (State.marker dt_timestamp).

(** The questions of the interactive mode only print through the
    platform. *)
Lemma fetch_options_logs days since unread_only interactive :
  keeps (logs is_print) (fetch_options days since unread_only interactive).
Proof. unfold Main.fetch_options. repeat keeps_step. Qed.

Lemma fetch_strategy_logs days since unread_only max_results :
  keeps (logs (fun _ => True)) (fetch_strategy days since unread_only max_results).
Proof.
  unfold Main.fetch_strategy.
  repeat first [keeps_step | apply logs_exec; intros w; by apply Forall_forall].
Qed.

(** The [except] clauses report on the terminal and do nothing else. *)
Lemma fetch_except_ok e s :
  exists s', fetch_except e s = (Ok tt, s')
             /\ Main.store s' = Main.store s /\ Main.mail s' = Main.mail s
             /\ Main.calls s' = Main.calls s.
Proof.
  unfold Main.fetch_except. destruct (is_FileNotFoundError e); by eexists.
Qed.

(** The flag [save_state] is set only when the command line gives no
    window. *)
Lemma fetch_options_save_state days since unread_only interactive s
    days' since' unread_only' s' :
  fetch_options days since unread_only interactive s
  = (Ok (days', since', unread_only', true), s') ->
  truthy_int days = false /\ since = None.
Proof.
  unfold Main.fetch_options.
  destruct (truthy_int days), since as [d|]; rewrite ?andb_false_r; cbn;
    try done.
Qed.

(** Without the interactive mode the options are those of the command
    line. *)
Lemma fetch_options_noninteractive days since unread_only s :
  fetch_options days since unread_only false s
  = (Ok (days, since, unread_only,
         negb (truthy_int days) && negb (Main.truthy_datetime since)), s).
Proof.
  unfold Main.fetch_options. cbn [andb].
  by destruct (negb (truthy_int days) && negb (Main.truthy_datetime since)).
Qed.

(** The runs of the body of the [try] statement: it raises, or it returns
    without saving, or it returns after saving a time read from the clock;
    up to the save the store is untouched. *)
Lemma fetch_try_cases days since unread_only max_results interactive s r s' :
  fetch_try days since unread_only max_results interactive s = (r, s') ->
  exists s0,
    logs (fun _ => True) s s0
    /\ ((exists e, r = Raise e /\ s' = s0)
        \/ (r = Ok tt /\ s' = s0)
        \/ (r = Ok tt /\ truthy_int days = false /\ since = None
            /\ exists t pre post,
                 Main.calls s0 = Main.calls s ++ pre ++ EvNow (Ok t) :: post
                 /\ Forall is_print pre
                 /\ s' = Main.mk_session (save_last_run (Some t) (Main.store s0))
                           (Main.mail s0) (Main.tty s0) (Main.calls s0))).
Proof.
  unfold Main.fetch_try. intros H.
  apply bind_cases in H as [(e & H1 & ->)|([[[days' since'] unread_only'] save_state] & s1 & H1 & H)].
  { exists s'. split; [|left; by exists e].
    eapply logs_weaken; [|by eapply fetch_options_logs]. done. }
  pose proof (fetch_options_logs _ _ _ _ _ _ _ H1) as G1.
  assert (logs (fun _ => True) s s1) as G1' by (by eapply logs_weaken).
  apply bind_cases in H as [(e & H2 & ->)|(t & s2 & H2 & H)].
  { rewrite datetime_now_ok in H2. done. }
  rewrite datetime_now_ok in H2. injection H2 as Ht Hs2.
  assert (logs (fun _ => True) s1 s2) as G2.
  { rewrite <- Hs2. split; [done|]. eexists. split; [done|]. by constructor. }
  apply bind_cases in H as [(e & H3 & ->)|(emails & s3 & H3 & H)].
  { exists s'. split; [|left; by exists e].
    etrans; [exact G1'|]. etrans; [exact G2|]. by eapply fetch_strategy_logs. }
  pose proof (fetch_strategy_logs _ _ _ _ _ _ _ H3) as G3.
  assert (forall (p : prog unit), keeps (logs (fun _ => True)) (Main.exec (T:=T) pf p))
    as Hexec by (intros p; apply logs_exec; intros w; by apply Forall_forall).
  apply bind_cases in H as [(e & H4 & ->)|(u & s4 & H4 & H)].
  { exists s'. split; [|left; by exists e].
    etrans; [exact G1'|]. etrans; [exact G2|]. etrans; [exact G3|].
    by eapply Hexec. }
  pose proof (Hexec _ _ _ _ H4) as G4.
  destruct save_state.
  - apply bind_cases in H as [(e & H5 & ->)|([] & s5 & H5 & H)].
    { by rewrite print_ok in H5. }
    rewrite print_ok in H5. injection H5 as Hs5.
    assert (logs (fun _ => True) s4 s5) as G5.
    { rewrite <- Hs5. split; [done|]. eexists. split; [done|]. by constructor. }
    injection H as <- <-. exists s5. split.
    { etrans; [exact G1'|]. etrans; [exact G2|]. etrans; [exact G3|].
      etrans; [exact G4 | exact G5]. }
    right. right. split; [done|].
    destruct (fetch_options_save_state _ _ _ _ _ _ _ _ _ H1) as [Hd Hs].
    split; [done|]. split; [done|].
    destruct G1 as [_ (tr1 & E1 & Hp1)]. destruct G3 as [_ (tr3 & E3 & _)].
    destruct G4 as [_ (tr4 & E4 & _)]. destruct G5 as [_ (tr5 & E5 & _)].
    exists t, tr1, (tr3 ++ tr4 ++ tr5). split; [|done].
    rewrite E5, E4, E3, <- Hs2. cbn. rewrite E1, Ht.
    by rewrite <- !app_assoc.
  - injection H as <- <-. exists s4. split.
    { etrans; [exact G1'|]. etrans; [exact G2|]. etrans; [exact G3|]. exact G4. }
    right. by left.
Qed.

(** The command: three lines, then the [try] statement. *)
Lemma fetch_unfold days since unread_only max_results interactive s :
  fetch days since unread_only max_results interactive s
  = Main.try_except
      (fetch_try days since unread_only max_results interactive) fetch_except
      (Main.mk_session (Main.store s)
         (console pf (Main.rule (ch "="))
            (console pf (Main.MAILBOX :: py " Action Items - Email Fetcher")
               (console pf (Main.rule (ch "=")) (Main.mail s))))
         (Main.tty s)
         (Main.calls s
            ++ [EvPrint (Main.rule (ch "="));
                EvPrint (Main.MAILBOX :: py " Action Items - Email Fetcher");
                EvPrint (Main.rule (ch "="))])).
Proof.
  unfold Main.fetch. unfold mbind at 1, Main.M_bind. rewrite print_ok.
  unfold mbind at 1, Main.M_bind. rewrite print_ok.
  unfold mbind at 1, Main.M_bind. rewrite print_ok.
  cbn [Main.store Main.mail Main.tty Main.calls].
  by rewrite <- !app_assoc.
Qed.

(** The command [fetch] returns normally whatever happens.  It leaves the
    store as it was, except in one case: the command line gave no window
    (no truthy [--days], no [--since]); then it may save, and what it
    saves is a time that it read from the clock after printing only,
    before any call to the service. *)
Theorem fetch_saves_only_without_window
    days since unread_only max_results interactive s :
  let x := fetch days since unread_only max_results interactive s in
  x.1 = Ok tt
  /\ (Main.store x.2 = Main.store s
      \/ (truthy_int days = false /\ since = None
          /\ exists t pre post,
               Main.calls x.2 = Main.calls s ++ pre ++ EvNow (Ok t) :: post
               /\ Forall is_print pre
               /\ Main.store x.2 = save_last_run (Some t) (Main.store s))).
Proof.
  intros x. subst x. rewrite fetch_unfold. unfold Main.try_except.
  set (s1 := Main.mk_session _ _ _ _).
  destruct (fetch_try days since unread_only max_results interactive s1)
    as [r s2] eqn:Htry.
  apply fetch_try_cases in Htry as (s0 & [Hst _] & Hcases).
  destruct Hcases as [(e & -> & ->)|[[-> ->]|(-> & Hd & Hs & t & pre & post & Hc & Hp & ->)]].
  - destruct (fetch_except_ok e s0) as (s' & -> & Hst' & _). cbn.
    split; [done|]. left. by rewrite Hst', Hst.
  - cbn. split; [done|]. left. by rewrite Hst.
  - cbn. split; [done|]. right. split; [done|]. split; [done|].
    exists t, ([EvPrint (Main.rule (ch "="));
                EvPrint (Main.MAILBOX :: py " Action Items - Email Fetcher");
                EvPrint (Main.rule (ch "="))] ++ pre), post.
    split; [|split].
    + rewrite Hc. subst s1. cbn. by rewrite <- !app_assoc.
    + apply Forall_app. split; [by repeat constructor | done].
    + by rewrite Hst.
Qed.

(** When the body of the [try] statement raises, from whatever step (the
    service, a Date header, a body that does not decode, the state file, a
    prompt), the store is as before; and the [except] clauses report the
    error on the terminal without raising, and touch nothing else. *)
Theorem fetch_error_keeps_store :
  (forall days since unread_only max_results interactive s e s',
      fetch_try days since unread_only max_results interactive s = (Raise e, s') ->
      Main.store s' = Main.store s)
  /\ (forall e s,
        (fetch_except e s).1 = Ok tt
        /\ Main.store (fetch_except e s).2 = Main.store s
        /\ Main.mail (fetch_except e s).2 = Main.mail s
        /\ Main.calls (fetch_except e s).2 = Main.calls s).
Proof.
  split.
  - intros days since unread_only max_results interactive s e s' Htry.
    apply fetch_try_cases in Htry as (s0 & [Hst _] & Hcases).
    destruct Hcases as [(e' & _ & ->)|[[? _]|[? _]]]; done.
  - intros e s. destruct (fetch_except_ok e s) as (s' & -> & H).
    split; [done | exact H].
Qed.

(** Without the interactive mode and without a window, a run whose [try]
    body completes saves the time read from the clock at its start,
    before the fetch; when that time survives the JSON file and the
    conversion from its epoch value, it is what the next run reads as the
    last run. *)
Theorem fetch_incremental_saves_start_time
    days unread_only max_results s s' :
  truthy_int days = false ->
  fetch_try days None unread_only max_results false s = (Ok tt, s') ->
  let start := (clock pf (Main.mail s)).1 in
  Main.store s' = save_last_run (Some start) (Main.store s)
  /\ (forall T',
         json_loads (json_dumps (marker start)) = Ok (marker start) ->
         PrimFloat.eqb (dt_timestamp start) 0 = false ->
         fromtimestamp_float (dt_timestamp start) = Ok T' ->
         get_last_run (Main.store s') = Ok (Some T')).
Proof.
  intros Hd H start. subst start.
  assert (Main.store s'
          = save_last_run (Some (clock pf (Main.mail s)).1) (Main.store s))
    as Hsaved.
  { revert H. unfold Main.fetch_try.
    intros H.
    apply bind_cases in H as [(e & H1 & ?)|([[[days' since'] unread_only'] save_state] & s1 & H1 & H)];
      [done|].
    rewrite fetch_options_noninteractive, Hd in H1.
    injection H1 as <- <- <- <- <-.
    apply bind_cases in H as [(e & H2 & ?)|(t & s2 & H2 & H)]; [done|].
    rewrite datetime_now_ok in H2. injection H2 as Ht Hs2.
    apply bind_cases in H as [(e & H3 & ?)|(emails & s3 & H3 & H)]; [done|].
    pose proof (fetch_strategy_logs _ _ _ _ _ _ _ H3) as [G3 _].
    apply bind_cases in H as [(e & H4 & ?)|(u & s4 & H4 & H)]; [done|].
    assert (Main.store s4 = Main.store s3) as G4.
    { revert H4. unfold Main.exec.
      destruct (run pf _ (Main.mail s3)) as [[r4 m4] tr4].
      by intros [= _ <-]. }
    cbn [negb andb Main.truthy_datetime] in H.
    apply bind_cases in H as [(e & H5 & ?)|([] & s5 & H5 & H)]; [done|].
    rewrite print_ok in H5. injection H5 as Hs5.
    injection H as <-. cbn. rewrite <- Hs5. cbn. rewrite G4, G3, <- Hs2. cbn.
    by rewrite Ht. }
  split; [exact Hsaved|].
  intros T' Hjson Hnz Hfrom. rewrite Hsaved.
  by apply get_last_run_saved.
Qed.





End FetchCommand.

(** [fetch_error_keeps_store], first part: the second message of the
    mailbox has a Date header that is no date, the fetch raises, and the
    store, which held a marker, is as before. *)
Lemma fetch_error_keeps_store_witness :
  Main.store
    (test_fetch_try None None true 100 false
       (session_of (world_with_marker (py "{}")) bad_date_mailbox [])).2
  = world_with_marker (py "{}").
Proof.
  apply (proj1 (fetch_error_keeps_store fake_platform scripted
                  parsedate_to_datetime json_dumps json_loads utc_timestamp
                  utc_fromtimestamp_float utc_fromtimestamp_int strptime_ymd
                  (fun e => bool_decide (e = OSError)) (fun _ => py "error"))
           None None true 100 false
           (session_of (world_with_marker (py "{}")) bad_date_mailbox [])
           ValueError).
  vm_compute. reflexivity.
Defined.

(** [fetch_incremental_saves_start_time] on the first run of the test
    service, at noon of 6 October 2025: noon is saved, and read back. *)
Lemma fetch_incremental_saves_start_time_witness :
  Main.store
    (test_fetch_try None None true 100 false
       (session_of fresh_world two_messages [])).2
  = State.save_last_run json_dumps utc_timestamp (Some noon_2025_10_06) fresh_world
  /\ State.get_last_run json_loads utc_fromtimestamp_float utc_fromtimestamp_int
       (Main.store
          (test_fetch_try None None true 100 false
             (session_of fresh_world two_messages [])).2)
     = Ok (Some noon_2025_10_06).
Proof.
  destruct (fetch_incremental_saves_start_time fake_platform scripted
              parsedate_to_datetime json_dumps json_loads utc_timestamp
              utc_fromtimestamp_float utc_fromtimestamp_int strptime_ymd
              None true 100 (session_of fresh_world two_messages [])
              (test_fetch_try None None true 100 false
                 (session_of fresh_world two_messages [])).2
              eq_refl)
    as [Hsaved Hread].
  - vm_compute. reflexivity.
  - split; [exact Hsaved|]. apply Hread; vm_compute; reflexivity.
Defined.


Section ResetCommand.

Context {W T : Type}.
Variable tm : Main.terminal T.
Variable json_loads : str -> result json.
Variable fromtimestamp_float : float -> result datetime.
Variable fromtimestamp_int : Z -> result datetime.

Local Abbreviation get_last_run :=
  (State.get_last_run json_loads fromtimestamp_float fromtimestamp_int).

Lemma reset_unfold (s : Main.session W T) :
  Main.reset tm s
  = let '(r, t) :=
      Main.confirm tm (py "Are you sure you want to reset the last run timestamp?")
        false (Main.tty s) in
    match r with
    | Ok true =>
        (Ok tt,
         Main.mk_session (reset_last_run (Main.store s)) (Main.mail s)
           (Main.echo tm (py "Next fetch will retrieve emails from the last 7 days")
              (Main.echo tm
                 (Main.NL :: CHECK_MARK :: py " Last run timestamp has been reset")
                 t))
           (Main.calls s))
    | Ok false =>
        (Ok tt,
         Main.mk_session (Main.store s) (Main.mail s)
           (Main.echo tm (py "Reset cancelled") t) (Main.calls s))
    | Raise e =>
        (Raise e, Main.mk_session (Main.store s) (Main.mail s) t (Main.calls s))
    end.
Proof.
  unfold Main.reset, mbind, Main.M_bind, Main.asking.
  by destruct (Main.confirm tm _ false (Main.tty s)) as [[[]|e] t].
Qed.

(** The command [reset] asks first.  When the answer is yes the store
    reads as empty afterwards, whatever the marker file held; when the
    answer is no, or the question is aborted, the store is as before.  The
    command never calls the platform of the fetcher. *)
Theorem reset_asks_first (s : Main.session W T) :
  let question := py "Are you sure you want to reset the last run timestamp?" in
  let x := Main.reset tm s in
  match (Main.confirm tm question false (Main.tty s)).1 with
  | Ok true => x.1 = Ok tt /\ get_last_run (Main.store x.2) = Ok None
  | Ok false => x.1 = Ok tt /\ Main.store x.2 = Main.store s
  | Raise e => x.1 = Raise e /\ Main.store x.2 = Main.store s
  end
  /\ Main.mail x.2 = Main.mail s /\ Main.calls x.2 = Main.calls s.
Proof.
  intros question x. subst x question. rewrite reset_unfold.
  destruct (Main.confirm tm _ false (Main.tty s)) as [[[]|e] t]; cbn; try done.
  split; [|done]. split; [done|]. apply get_last_run_reset.
Qed.

End ResetCommand.
